(** * tickety-tock: the timer store and the duration formatter

    A shallow embedding of [data.ts]: the duration bucketizer and the
    registry of format strategies (pure code), and the SQLite-backed
    store of slugs, users, timers, groups and memberships (stateful code,
    run in a small state-and-exception monad over the database).

    Numbers are [Z].  The clock ([Date.now() / 1000], [unixepoch()]) is
    whole seconds: the formatters only ever print [Math.floor] of a
    quotient by a whole number of seconds, which the fraction of a second
    cannot change. *)

From Stdlib Require Import ZArith List String Ascii Bool Lia Arith.
From Stdlib Require Import DecimalString Permutation Sorted.
Import ListNotations.

Local Open Scope string_scope.
Local Open Scope Z_scope.

(** ** Results of code that may throw *)

Inductive Result (A : Type) : Type :=
| Ok (a : A)
| Throw (msg : string).
Arguments Ok {A} a.
Arguments Throw {A} msg.

(** ** JavaScript helpers *)

(** [n.toString()] and [`${n}`] for a whole number. *)
Definition numberToString (n : Z) : string :=
  NilZero.string_of_int (Z.to_int n).

(** The double-quote character, as a string. *)
Definition dquote : string := String (ascii_of_nat 34) EmptyString.

(** [arr[i]] for a number or [undefined] index ([None]): [undefined]
    unless [i] is a position of the array. *)
Definition arrayGet {A : Type} (arr : list A) (i : option Z) : option A :=
  match i with
  | Some z => if 0 <=? z then nth_error arr (Z.to_nat z) else None
  | None => None
  end.

(** ** Scales and the unit table *)

Record Scale : Type := mkScale { name : string; scale : Z }.

Definition Scales : Type := list Scale.

Definition units : Scales :=
  [ {| name := "Year";   scale := 365 * 24 * 3600 |};
    {| name := "Week";   scale := 7 * 24 * 3600 |};
    {| name := "Day";    scale := 24 * 3600 |};
    {| name := "Hour";   scale := 24 * 3600 |};
    {| name := "Minute"; scale := 60 |} ].

Definition scaleToStr (s : Scale) : string :=
  numberToString (scale s) ++ " " ++ name s
    ++ (if scale s =? 1 then "" else "s").

Definition Formatter : Type := Z -> Z -> Result string.

(** The closure looks the scale up under the fixed name ['Year'], whatever
    [name] it was made for. *)
Definition makeScaleFormatter (nm : string) : Formatter :=
  fun epoch now =>
    match hd_error (filter (fun v => String.eqb (name v) "Year") units) with
    | None => Throw ("Unrecoznied scale " ++ dquote ++ nm ++ dquote)
    | Some v =>
        Ok (scaleToStr {| name := nm; scale := (now - epoch) / scale v |})
    end.

(** The loop of [bucketTimes]: the units still to visit, the running
    [diff] and the buckets pushed so far; it ends with the buckets and the
    final value of [diff]. *)
Fixpoint bucketLoop (us : Scales) (diff : Z) (diffs : Scales) : Scales * Z :=
  match us with
  | [] => (diffs, diff)
  | unit :: rest =>
      let qty := diff / scale unit in
      let diffs' :=
        if (0 <? qty) || (0 <? List.length diffs)%nat
        then (diffs ++ [ {| name := name unit; scale := qty |} ])%list
        else diffs in
      bucketLoop rest (diff - qty * scale unit) diffs'
  end.

Definition bucketTimes (diff : Z) : Scales := fst (bucketLoop units diff []).

(** What is left of [diff] when the loop of [bucketTimes] ends. *)
Definition bucketRemainder (diff : Z) : Z := snd (bucketLoop units diff []).

Definition formatters : list (string * Formatter) :=
  [ ("Show Epoch", fun e _ => Ok (numberToString e));
    ("One Unit", fun e n =>
       match bucketTimes (n - e) with
       | [] => Ok "-"
       | b :: _ => Ok (scaleToStr b)
       end);
    ("Two Units", fun e n =>
       match bucketTimes (n - e) with
       | [] => Ok "-"
       | b1 :: rest =>
           let s := scaleToStr b1 in
           match rest with
           | b2 :: _ => Ok (s ++ ", " ++ scaleToStr b2)
           | [] => Ok s
           end
       end);
    ("Years", makeScaleFormatter "Year");
    ("Weeks", makeScaleFormatter "Week");
    ("Days", makeScaleFormatter "Day");
    ("Hours", makeScaleFormatter "Hour");
    ("Minutes", makeScaleFormatter "Minute") ].

Definition listFormatters : list string := map fst formatters.

(** [formatTime], with the clock reading [now] made a parameter. *)
Definition formatTime (now : Z) (epoch : Z) (format : option Z) : Result string :=
  match arrayGet formatters format with
  | Some (_, formatter) => formatter epoch now
  | None =>
      match nth_error formatters 1 with
      | Some (_, formatter) => formatter epoch now
      | None => Throw "TypeError: undefined is not iterable"
      end
  end.

(** A stable sort by a numeric key, smallest first: [Array.prototype.sort]
    with a comparator [(a, b) => key(a) - key(b)], and SQL's
    [ORDER BY key ASC].  [insertBy] puts [x] in front of a sorted list of
    elements that came after it: before the first element whose key is not
    smaller, so elements of equal key keep their order. *)
Fixpoint insertBy {A : Type} (key : A -> Z) (x : A) (l : list A) : list A :=
  match l with
  | [] => [x]
  | y :: l' => if key x <=? key y then x :: l else y :: insertBy key x l'
  end.

Definition sortBy {A : Type} (key : A -> Z) (l : list A) : list A :=
  fold_right (insertBy key) [] l.

(** A JavaScript object used as a map from numbers: its own properties in
    the order they were created. *)
Definition JsObject (V : Type) : Type := list (Z * V).

Definition objGet {V : Type} (o : JsObject V) (k : Z) : option V :=
  option_map snd (find (fun kv => fst kv =? k) o).

(** [o[k] = v]: replaces the value of an existing property where it
    stands, creates a new property last. *)
Fixpoint objSet {V : Type} (o : JsObject V) (k : Z) (v : V) : JsObject V :=
  match o with
  | [] => [(k, v)]
  | (k', v') :: o' =>
      if k' =? k then (k, v) :: o' else (k', v') :: objSet o' k v
  end.

(** A key is an array index when it is a whole number from 0 to 2^32 - 2. *)
Definition isArrayIndex (k : Z) : bool := (0 <=? k) && (k <? 2 ^ 32 - 1).

(** [Object.values(o)]: array-index keys first, in ascending order, then
    the other keys in creation order. *)
Definition objectValues {V : Type} (o : JsObject V) : list V :=
  (map snd (sortBy fst (filter (fun kv => isArrayIndex (fst kv)) o))
   ++ map snd (filter (fun kv => negb (isArrayIndex (fst kv))) o))%list.

(** ** The data model *)

Record User : Type := mkUser {
  user_id : Z;
  user_email : string;
  user_slug : string }.

Record Timer : Type := mkTimer {
  timer_id : Z;
  timer_epoch : Z;
  timer_title : string;
  timer_slug : string;
  timer_secret : string;
  timer_userid : Z;
  timer_format : Z;
  timer_createdAt : Z }.

Record Group : Type := mkGroup {
  group_id : Z;
  group_title : string;
  group_slug : string;
  group_createdAt : Z;
  group_timers : list Timer }.

(** A row of the [Groups] table. *)
Record GroupRow : Type := mkGroupRow {
  g_id : Z;
  g_title : string;
  g_slug : string;
  g_userid : Z;
  g_createdAt : Z }.

(** A row of the [TimerGroups] table. *)
Record TimerGroup : Type := mkTimerGroup {
  tg_id : Z;
  tg_groupid : Z;
  tg_timerid : Z;
  tg_userid : Z;
  tg_createdAt : Z }.

(** The database: each table is the list of its rows in rowid order.
    [foreign_keys] is SQLite's pragma of that name: the [ON DELETE
    CASCADE] clauses of the schema act only when it is on.  [seqUsers] is
    the AUTOINCREMENT counter of [Users].  The columns [resetAt] and
    [duration] of [Timers] are never read and are left out. *)
Record DB : Type := mkDB {
  foreign_keys : bool;
  Slugs : list string;
  Users : list User;
  seqUsers : Z;
  Timers : list Timer;
  Groups : list GroupRow;
  TimerGroups : list TimerGroup }.

(** The world a [Data] method runs in: the database, the clock read by
    [unixepoch()], and the random source: [random k] is the value of the
    k-th evaluation of [Math.floor(Math.random() * slugChars.length)] and
    [drawn] counts the evaluations made so far. *)
Record World : Type := mkWorld {
  db : DB;
  clock : Z;
  random : nat -> nat;
  drawn : nat }.

(** ** The monad of [Data] methods: state, and exceptions that keep it *)

Definition M (A : Type) : Type := World -> Result A * World.

Definition ret {A : Type} (a : A) : M A := fun w => (Ok a, w).

Definition throw {A : Type} (msg : string) : M A := fun w => (Throw msg, w).

Definition bind {A B : Type} (m : M A) (k : A -> M B) : M B :=
  fun w =>
    match m w with
    | (Ok a, w') => k a w'
    | (Throw msg, w') => (Throw msg, w')
    end.

Notation "x <- m ;; k" := (bind m (fun x => k))
  (at level 61, m at next level, right associativity).
Notation "m ;;; k" := (bind m (fun _ => k))
  (at level 61, right associativity).

Definition getDB : M DB := fun w => (Ok (db w), w).

Definition putDB (d : DB) : M unit :=
  fun w => (Ok tt, {| db := d; clock := clock w;
                      random := random w; drawn := drawn w |}).

Definition unixepoch : M Z := fun w => (Ok (clock w), w).

(** One evaluation of [Math.floor(Math.random() * slugChars.length)]. *)
Definition randomIndex : M nat :=
  fun w => (Ok (random w (drawn w)),
            {| db := db w; clock := clock w;
               random := random w; drawn := S (drawn w) |}).

(** ** The slug allocator *)

Definition slugChars : string :=
  "ABCDEFGHJKLMNPQRSTUVWXYZabcdefghijkmnopqrstuvwxyz23456789".

(** [slug + s[i]]: the character at [i], or the text of [undefined]
    past the end of [s]. *)
Definition charAt (s : string) (i : nat) : string :=
  match String.get i s with
  | Some c => String c EmptyString
  | None => "undefined"
  end.

(** The innermost loop of [createSlug]: [n] more characters after [slug]. *)
Fixpoint randomChars (n : nat) (slug : string) : M string :=
  match n with
  | O => ret slug
  | S n' =>
      i <- randomIndex ;;
      randomChars n' (slug ++ charAt slugChars i)
  end.

Definition withSlugs (d : DB) (l : list string) : DB :=
  {| foreign_keys := foreign_keys d; Slugs := l; Users := Users d;
     seqUsers := seqUsers d; Timers := Timers d; Groups := Groups d;
     TimerGroups := TimerGroups d |}.

(** The [lastID] of the result of a [db.run].  The driver sets it after
    every run, to the rowid of the row the connection inserted last: the
    row of this run when it inserted one, and otherwise the row of an
    earlier run, a number that is not followed here.  It is a number in
    both cases, never [undefined]. *)
Inductive LastID : Type :=
| InsertedRow (rowid : Z)
| EarlierRow.

(** [lastID !== undefined]. *)
Definition isDefined (lastID : LastID) : bool :=
  match lastID with
  | InsertedRow _ => true
  | EarlierRow => true
  end.

(** [INSERT OR IGNORE INTO Slugs (slug) VALUES (?)], giving the [lastID]
    of the run.  The column is UNIQUE: a slug already in the table is
    ignored, and the table stays as it was. *)
Definition insertOrIgnoreSlug (slug : string) : M LastID :=
  d <- getDB ;;
  if existsb (String.eqb slug) (Slugs d)
  then ret EarlierRow
  else putDB (withSlugs d (Slugs d ++ [slug])%list) ;;;
       ret (InsertedRow (Z.of_nat (List.length (Slugs d)) + 1)).

(** The [attempt] loop of [createSlug] for one [length], with [n]
    attempts to go: the accepted slug, or [None] when none was. *)
Fixpoint attemptLoop (n : nat) (length : nat) : M (option string) :=
  match n with
  | O => ret None
  | S n' =>
      slug <- randomChars length "" ;;
      result <- insertOrIgnoreSlug slug ;;
      if isDefined result
      then ret (Some slug)
      else attemptLoop n' length
  end.

(** The [length] loop of [createSlug] over the lengths still to try. *)
Fixpoint lengthLoop (lengths : list nat) : M string :=
  match lengths with
  | [] => throw "token space exhausted"
  | length :: rest =>
      r <- attemptLoop 9 length ;;
      match r with
      | Some slug => ret slug
      | None => lengthLoop rest
      end
  end.

(** [for (let length=6; length<12; length+=2)] visits 6, 8 and 10. *)
Definition createSlug : M string := lengthLoop [6; 8; 10]%nat.

(** ** Users *)

Definition hasEmail (email : string) (u : User) : bool :=
  String.eqb (user_email u) email.

(** The rowid an AUTOINCREMENT table gives a new row: one more than the
    largest of its counter and the rowids in use. *)
Definition nextRowid (seq : Z) (ids : list Z) : Z :=
  Z.max seq (fold_right Z.max 0 ids) + 1.

(** [INSERT OR IGNORE INTO USERS (email, slug) VALUES (?, ?)]: the next
    AUTOINCREMENT id is drawn, and the counter moves to it, before the
    UNIQUE [email] is looked at; the row goes in under that id unless the
    email is taken, and is ignored when it is. *)
Definition insertOrIgnoreUser (email slug : string) : M unit :=
  d <- getDB ;;
  let id := nextRowid (seqUsers d) (map user_id (Users d)) in
  putDB
    {| foreign_keys := foreign_keys d; Slugs := Slugs d;
       Users := if existsb (hasEmail email) (Users d)
                then Users d
                else (Users d ++ [ {| user_id := id; user_email := email;
                                      user_slug := slug |} ])%list;
       seqUsers := id; Timers := Timers d;
       Groups := Groups d; TimerGroups := TimerGroups d |}.

Definition getOrCreateUser (email : string) : M User :=
  slug <- createSlug ;;
  insertOrIgnoreUser email slug ;;;
  d <- getDB ;;
  match find (hasEmail email) (Users d) with
  | None => throw "TypeError: Cannot read properties of undefined"
  | Some res =>
      ret {| user_id := user_id res; user_email := email;
             user_slug := user_slug res |}
  end.

(** ** Queries over timers and groups *)

(** [column = ?] for a bound parameter; a placeholder given no argument
    is NULL, and no comparison with NULL holds. *)
Definition sqlEq (column : string) (param : option string) : bool :=
  match param with
  | Some v => String.eqb column v
  | None => false
  end.

(** The columns the ORDER BY clauses of [getTimersBySlug] name. *)
Inductive OrderTerm : Type :=
| tg_createdAt_term
| t_createdAt_term.

(** One SELECT of a compound statement over the timer columns: its rows
    for its bound parameter, and its ORDER BY clause when it has one. *)
Record SelectArm : Type := mkArm {
  arm_rows : option string -> DB -> list Timer;
  arm_orderBy : option OrderTerm }.

(** [FROM Groups g INNER JOIN TimerGroups tg ON g.id = tg.groupid
     INNER JOIN Timers t ON tg.timerid = t.id WHERE g.slug = ?]. *)
Definition groupArmRows (param : option string) (d : DB) : list Timer :=
  flat_map (fun g =>
    flat_map (fun tg =>
      flat_map (fun t =>
        if (g_id g =? tg_groupid tg) && (tg_timerid tg =? timer_id t)
           && sqlEq (g_slug g) param
        then [t] else [])
      (Timers d))
    (TimerGroups d))
  (Groups d).

(** [FROM Timers t WHERE t.slug = ?]. *)
Definition timerArmRows (param : option string) (d : DB) : list Timer :=
  filter (fun t => sqlEq (timer_slug t) param) (Timers d).

(** [FROM Users u INNER JOIN Timers t ON t.userid = u.id WHERE u.slug = ?]. *)
Definition userArmRows (param : option string) (d : DB) : list Timer :=
  flat_map (fun u =>
    flat_map (fun t =>
      if (timer_userid t =? user_id u) && sqlEq (user_slug u) param
      then [t] else [])
    (Timers d))
  (Users d).

(** The rows of the arms in turn, the k-th arm reading the k-th argument. *)
Fixpoint armsRows (arms : list SelectArm) (params : list string) (k : nat)
    (d : DB) : list Timer :=
  match arms with
  | [] => []
  | a :: rest =>
      (arm_rows a (nth_error params k) d ++ armsRows rest params (S k) d)%list
  end.

(** An ORDER BY term of a compound statement has to be one of its result
    columns: the membership's [createdAt] is not among the timer columns. *)
Definition resultColumn (term : OrderTerm) : option (Timer -> Z) :=
  match term with
  | tg_createdAt_term => None
  | t_createdAt_term => Some timer_createdAt
  end.

(** SQLite on [prior_1 UNION ALL ... UNION ALL final]: an ORDER BY is
    accepted only after the last SELECT, and then orders the whole
    result. *)
Definition unionAll (prior : list SelectArm) (final : SelectArm)
    (params : list string) (d : DB) : Result (list Timer) :=
  if existsb (fun a => match arm_orderBy a with Some _ => true | None => false end)
       prior
  then Throw "SQLITE_ERROR: ORDER BY clause should come after UNION ALL not before"
  else
    let rows := armsRows (prior ++ [final]) params 0 d in
    match arm_orderBy final with
    | None => Ok rows
    | Some term =>
        match resultColumn term with
        | Some key => Ok (sortBy key rows)
        | None =>
            Throw "SQLITE_ERROR: 1st ORDER BY term does not match any column in the result set"
        end
    end.

(** [db.all] of a statement: its rows, or the engine's error thrown. *)
Definition dbAll {A : Type} (stmt : DB -> Result A) : M A :=
  fun w => (stmt (db w), w).

(** The statement has three placeholders and is run with two arguments. *)
Definition getTimersBySlug (slug : string) : M (list Timer) :=
  dbAll (unionAll
           [ {| arm_rows := groupArmRows; arm_orderBy := Some tg_createdAt_term |};
             {| arm_rows := timerArmRows; arm_orderBy := None |} ]
           {| arm_rows := userArmRows; arm_orderBy := Some t_createdAt_term |}
           [slug; slug]).

(** The rows of the join of [getGroups]: a group row with a timer of one
    of its memberships. *)
Definition getGroupsRows (userId : Z) (d : DB) : list (GroupRow * Timer) :=
  flat_map (fun g =>
    flat_map (fun tg =>
      flat_map (fun t =>
        if (tg_groupid tg =? g_id g) && (tg_timerid tg =? timer_id t)
           && (g_userid g =? userId)
        then [(g, t)] else [])
      (Timers d))
    (TimerGroups d))
  (Groups d).

(** The body of the [for (const row of rows)] loop of [getGroups]: the
    group of the row is created empty when the object has none under its
    id, and the timer of the row is pushed on it. *)
Definition getGroupsStep (groups : JsObject Group) (row : GroupRow * Timer)
    : JsObject Group :=
  let (g, t) := row in
  let grp :=
    match objGet groups (g_id g) with
    | Some grp => grp
    | None => {| group_id := g_id g; group_title := g_title g;
                 group_slug := g_slug g; group_createdAt := g_createdAt g;
                 group_timers := [] |}
    end in
  objSet groups (g_id g)
    {| group_id := group_id grp; group_title := group_title grp;
       group_slug := group_slug grp; group_createdAt := group_createdAt grp;
       group_timers := (group_timers grp ++ [t])%list |}.

Definition getGroups (userId : Z) : M (list Group) :=
  rows <- dbAll (fun d => Ok (getGroupsRows userId d)) ;;
  let groups := fold_left getGroupsStep rows [] in
  let arr := objectValues groups in
  ret (sortBy group_createdAt arr).

(** ** Deleting and resetting *)

(** [ON DELETE CASCADE] of [TimerGroups.timerid], when foreign keys are
    on: the memberships of the timers that went away go too. *)
Definition cascadeTimers (d : DB) (gone : list Timer) : list TimerGroup :=
  if foreign_keys d
  then filter (fun tg => negb (existsb (fun t => timer_id t =? tg_timerid tg) gone))
         (TimerGroups d)
  else TimerGroups d.

(** The same for [TimerGroups.groupid]. *)
Definition cascadeGroups (d : DB) (gone : list GroupRow) : list TimerGroup :=
  if foreign_keys d
  then filter (fun tg => negb (existsb (fun g => g_id g =? tg_groupid tg) gone))
         (TimerGroups d)
  else TimerGroups d.

Definition deleteTimer (userId : Z) (slug : string) : M unit :=
  d <- getDB ;;
  let hit t := (timer_userid t =? userId) && String.eqb (timer_slug t) slug in
  putDB {| foreign_keys := foreign_keys d; Slugs := Slugs d; Users := Users d;
           seqUsers := seqUsers d;
           Timers := filter (fun t => negb (hit t)) (Timers d);
           Groups := Groups d;
           TimerGroups := cascadeTimers d (filter hit (Timers d)) |}.

Definition resetTimer (slug secret : string) : M unit :=
  d <- getDB ;;
  now <- unixepoch ;;
  let hit t := String.eqb (timer_slug t) slug
               && String.eqb (timer_secret t) secret in
  putDB {| foreign_keys := foreign_keys d; Slugs := Slugs d; Users := Users d;
           seqUsers := seqUsers d;
           Timers := map (fun t =>
                            if hit t
                            then {| timer_id := timer_id t; timer_epoch := now;
                                    timer_title := timer_title t;
                                    timer_slug := timer_slug t;
                                    timer_secret := timer_secret t;
                                    timer_userid := timer_userid t;
                                    timer_format := timer_format t;
                                    timer_createdAt := timer_createdAt t |}
                            else t)
                         (Timers d);
           Groups := Groups d; TimerGroups := TimerGroups d |}.

Definition deleteGroup (slug : string) : M unit :=
  d <- getDB ;;
  let hit g := String.eqb (g_slug g) slug in
  putDB {| foreign_keys := foreign_keys d; Slugs := Slugs d; Users := Users d;
           seqUsers := seqUsers d; Timers := Timers d;
           Groups := filter (fun g => negb (hit g)) (Groups d);
           TimerGroups := cascadeGroups d (filter hit (Groups d)) |}.

(** ** Vocabulary of the statements about the bucketizer *)

(** The scale the table [units] holds under a unit name (0 for a name it
    does not hold). *)
Definition unitSeconds (nm : string) : Z :=
  match find (fun u => String.eqb (name u) nm) units with
  | Some u => scale u
  | None => 0
  end.

(** Seconds accounted for by a list of buckets, each count weighed by the
    scale of its unit. *)
Definition bucketSeconds (bs : Scales) : Z :=
  fold_right (fun b acc => scale b * unitSeconds (name b) + acc) 0 bs.

(** ** Vocabulary of the statements about the store *)

(** The invariant of the loop of [getGroups]: every group of the object
    under construction carries its own id as key, holds at least one
    timer, and comes from a row of the join. *)
Definition groupsInv (rows : list (GroupRow * Timer)) (o : JsObject Group) : Prop :=
  forall k grp, In (k, grp) o ->
    group_id grp = k /\ group_timers grp <> []
    /\ exists g t, In (g, t) rows /\ g_id g = k.

(** A small database used to run the methods on: two users; two timers
    and two groups of the second user, the first group holding both
    timers (the second timer linked first) and the second group none. *)
Definition sampleTimer1 : Timer :=
  {| timer_id := 1; timer_epoch := 1700000000; timer_title := "Laundry";
     timer_slug := "Tmr222"; timer_secret := "secret-a"; timer_userid := 2;
     timer_format := 2; timer_createdAt := 1700000000 |}.

Definition sampleTimer2 : Timer :=
  {| timer_id := 2; timer_epoch := 1700000100; timer_title := "Oven";
     timer_slug := "Tmr333"; timer_secret := "secret-b"; timer_userid := 2;
     timer_format := 2; timer_createdAt := 1700000100 |}.

Definition sampleGroup1 : GroupRow :=
  {| g_id := 1; g_title := "Home"; g_slug := "Grp222"; g_userid := 2;
     g_createdAt := 1700000200 |}.

Definition sampleGroup2 : GroupRow :=
  {| g_id := 2; g_title := "Empty"; g_slug := "Grp333"; g_userid := 2;
     g_createdAt := 1700000300 |}.

Definition sampleDB : DB :=
  {| foreign_keys := false;
     Slugs := ["Usr222"; "Usr333"; "Tmr222"; "Tmr333"; "Grp222"; "Grp333"];
     Users := [ {| user_id := 1; user_email := "ann@example.org";
                   user_slug := "Usr222" |};
                {| user_id := 2; user_email := "bob@example.org";
                   user_slug := "Usr333" |} ];
     seqUsers := 2;
     Timers := [sampleTimer1; sampleTimer2];
     Groups := [sampleGroup1; sampleGroup2];
     TimerGroups :=
       [ {| tg_id := 1; tg_groupid := 1; tg_timerid := 2; tg_userid := 2;
            tg_createdAt := 1700000400 |};
         {| tg_id := 2; tg_groupid := 1; tg_timerid := 1; tg_userid := 2;
            tg_createdAt := 1700000500 |} ] |}.

(** The sample database at a given time, with a random source that
    walks through the alphabet. *)
Definition sampleWorld : World :=
  {| db := sampleDB; clock := 1700003661;
     random := fun k => (k mod 57)%nat; drawn := 0 |}.

(** The candidate slug read off a random source: [n] characters of the
    alphabet from draw number [start] on. *)
Fixpoint drawString (rnd : nat -> nat) (start n : nat) : string :=
  match n with
  | O => ""
  | S n' => charAt slugChars (rnd start) ++ drawString rnd (S start) n'
  end.

(** The world after [n] more draws. *)
Definition advance (w : World) (n : nat) : World :=
  {| db := db w; clock := clock w; random := random w;
     drawn := (drawn w + n)%nat |}.

(** The world after [slug] went into the registry, with [n] draws made. *)
Definition registered (w : World) (slug : string) (n : nat) : World :=
  {| db := withSlugs (db w) (Slugs (db w) ++ [slug])%list;
     clock := clock w; random := random w; drawn := n |}.

(** [n] calls of [createSlug] one after the other by a caller that
    catches what they throw: the outcome of each call. *)
Fixpoint createSlugCalls (n : nat) (w : World) : list (Result string) * World :=
  match n with
  | O => ([], w)
  | S n' =>
      let (r, w1) := createSlug w in
      let (rs, w2) := createSlugCalls n' w1 in
      (r :: rs, w2)
  end.

(** The slugs returned among the outcomes of a run of calls. *)
Definition returned (rs : list (Result string)) : list string :=
  flat_map (fun r => match r with Ok s => [s] | Throw _ => [] end) rs.

(** All the characters of [s] are characters of [slugChars]. *)
Definition inAlphabet (s : string) : Prop :=
  Forall (fun c => In c (list_ascii_of_string slugChars))
         (list_ascii_of_string s).

(** [Math.random()] is at least 0 and below 1: every draw is a position
    of [slugChars]. *)
Definition drawsInRange (w : World) : Prop :=
  forall k, (random w k < String.length slugChars)%nat.

(** A world whose random source is stuck on the first character: every
    candidate of a length is the same slug. *)
Definition stuckWorld : World :=
  {| db := sampleDB; clock := 1700003661; random := fun _ => 0%nat;
     drawn := 0 |}.

(** The sample database with a random source whose first six draws spell
    the slug of the first sample timer. *)
Definition collidingWorld : World :=
  {| db := sampleDB; clock := 1700003661;
     random := fun k => nth k [17; 35; 40; 49; 49; 49]%nat 0%nat;
     drawn := 0 |}.

(** ** The rest of the store: settings, creation and memberships *)

(** Timers of a user: [getTimersForUser] and [getTimers] run the same
    statement, [SELECT ... FROM Timers t WHERE userid = ?]. *)
Definition timersOfUser (userid : Z) (d : DB) : list Timer :=
  filter (fun t => timer_userid t =? userid) (Timers d).

Definition getTimersForUser (userid : Z) : M (list Timer) :=
  dbAll (fun d => Ok (timersOfUser userid d)).

Definition getTimers (userId : Z) : M (list Timer) :=
  dbAll (fun d => Ok (timersOfUser userId d)).

Definition removeTimer (userId groupId timerId : Z) : M unit :=
  d <- getDB ;;
  let hit tg := (tg_userid tg =? userId) && (tg_groupid tg =? groupId)
                && (tg_timerid tg =? timerId) in
  putDB {| foreign_keys := foreign_keys d; Slugs := Slugs d; Users := Users d;
           seqUsers := seqUsers d; Timers := Timers d; Groups := Groups d;
           TimerGroups := filter (fun tg => negb (hit tg)) (TimerGroups d) |}.

(** A value of the [Settings] table: a number or a string. *)
Inductive SettingValue : Type :=
| NumberValue (n : Z)
| StringValue (s : string).

(** The state the remaining methods need beside the world: the
    [Settings] table, the AUTOINCREMENT counters of [Timers], [Groups] and
    [TimerGroups], and the source of [randomUUID()]: [uuid k] is the k-th
    value it returns and [uuids] counts the calls made so far. *)
Record Store : Type := mkStore {
  world : World;
  Settings : list (string * SettingValue);
  seqTimers : Z;
  seqGroups : Z;
  seqTimerGroups : Z;
  uuid : nat -> string;
  uuids : nat }.

Definition withWorld (s : Store) (w : World) : Store :=
  {| world := w; Settings := Settings s; seqTimers := seqTimers s;
     seqGroups := seqGroups s; seqTimerGroups := seqTimerGroups s;
     uuid := uuid s; uuids := uuids s |}.

Definition withSettings (s : Store) (l : list (string * SettingValue)) : Store :=
  {| world := world s; Settings := l; seqTimers := seqTimers s;
     seqGroups := seqGroups s; seqTimerGroups := seqTimerGroups s;
     uuid := uuid s; uuids := uuids s |}.

Definition withDB (w : World) (d : DB) : World :=
  {| db := d; clock := clock w; random := random w; drawn := drawn w |}.

(** Methods over the store. *)
Definition StoreM (A : Type) : Type := Store -> Result A * Store.

(** [SELECT value FROM Settings WHERE key = ?] and [res?.value]. *)
Definition getSetting (key : string) : StoreM (option SettingValue) :=
  fun s =>
    (Ok (option_map snd (find (fun kv => String.eqb (fst kv) key) (Settings s))),
     s).

(** The upsert of [setSetting]: the row of the key takes the value where
    it stands; without one, a new row goes last. *)
Fixpoint upsertSetting (l : list (string * SettingValue)) (key : string)
    (value : SettingValue) : list (string * SettingValue) :=
  match l with
  | [] => [(key, value)]
  | (k, v) :: l' =>
      if String.eqb k key then (k, value) :: l'
      else (k, v) :: upsertSetting l' key value
  end.

Definition setSetting (key : string) (value : SettingValue) : StoreM unit :=
  fun s => (Ok tt, withSettings s (upsertSetting (Settings s) key value)).

(** [init]: the CREATE statements leave existing tables and indexes as
    they are, and [INSERT OR IGNORE INTO Settings (key, value) VALUES
    ('version', 1)] adds the version row unless the key has one. *)
Definition init : StoreM unit :=
  fun s =>
    (Ok tt,
     if existsb (fun kv => String.eqb (fst kv) "version") (Settings s)
     then s
     else withSettings s (Settings s ++ [("version", NumberValue 1)])%list).

Definition hasUser (d : DB) (userId : Z) : bool :=
  existsb (fun u => user_id u =? userId) (Users d).

Definition hasTimer (d : DB) (timerId : Z) : bool :=
  existsb (fun t => timer_id t =? timerId) (Timers d).

Definition hasGroup (d : DB) (groupId : Z) : bool :=
  existsb (fun g => g_id g =? groupId) (Groups d).

Definition foreignKeyFailed : string :=
  "SQLITE_CONSTRAINT: FOREIGN KEY constraint failed".

(** [createTimer]: the slug is allocated and the secret drawn before the
    INSERT runs; the row takes the defaults of the schema for [epoch],
    [format] and [createdAt]; with foreign keys on, the INSERT fails for
    a [userid] that is no user. *)
Definition createTimer (userId : Z) (title : string) : StoreM string :=
  fun s =>
    match createSlug (world s) with
    | (Throw msg, w) => (Throw msg, withWorld s w)
    | (Ok slug, w) =>
        let d := db w in
        let secret := uuid s (uuids s) in
        let s1 := {| world := w; Settings := Settings s;
                     seqTimers := seqTimers s; seqGroups := seqGroups s;
                     seqTimerGroups := seqTimerGroups s;
                     uuid := uuid s; uuids := S (uuids s) |} in
        if foreign_keys d && negb (hasUser d userId)
        then (Throw foreignKeyFailed, s1)
        else
          let id := nextRowid (seqTimers s) (map timer_id (Timers d)) in
          let row := {| timer_id := id; timer_epoch := clock w;
                        timer_title := title; timer_slug := slug;
                        timer_secret := secret; timer_userid := userId;
                        timer_format := 2; timer_createdAt := clock w |} in
          (Ok slug,
           {| world := withDB w
                {| foreign_keys := foreign_keys d; Slugs := Slugs d;
                   Users := Users d; seqUsers := seqUsers d;
                   Timers := (Timers d ++ [row])%list;
                   Groups := Groups d; TimerGroups := TimerGroups d |};
              Settings := Settings s; seqTimers := id;
              seqGroups := seqGroups s; seqTimerGroups := seqTimerGroups s;
              uuid := uuid s; uuids := S (uuids s) |})
    end.

(** [createGroup]: as [createTimer]; [res.lastID] is the id of the new
    row, and the method throws, after the INSERT, when that is 0. *)
Definition createGroup (userId : Z) (title : string) : StoreM string :=
  fun s =>
    match createSlug (world s) with
    | (Throw msg, w) => (Throw msg, withWorld s w)
    | (Ok slug, w) =>
        let d := db w in
        if foreign_keys d && negb (hasUser d userId)
        then (Throw foreignKeyFailed, withWorld s w)
        else
          let id := nextRowid (seqGroups s) (map g_id (Groups d)) in
          let row := {| g_id := id; g_title := title; g_slug := slug;
                        g_userid := userId; g_createdAt := clock w |} in
          let s1 :=
            {| world := withDB w
                 {| foreign_keys := foreign_keys d; Slugs := Slugs d;
                    Users := Users d; seqUsers := seqUsers d;
                    Timers := Timers d;
                    Groups := (Groups d ++ [row])%list;
                    TimerGroups := TimerGroups d |};
               Settings := Settings s; seqTimers := seqTimers s;
               seqGroups := id; seqTimerGroups := seqTimerGroups s;
               uuid := uuid s; uuids := uuids s |} in
          if id =? 0 then (Throw "Did not receive group id", s1)
          else (Ok slug, s1)
    end.

(** [addTimer]: one more membership row; with foreign keys on, the INSERT
    fails unless the group and the timer exist. *)
Definition addTimer (userId groupId timerId : Z) : StoreM unit :=
  fun s =>
    let w := world s in
    let d := db w in
    if foreign_keys d && negb (hasGroup d groupId && hasTimer d timerId)
    then (Throw foreignKeyFailed, s)
    else
      let id := nextRowid (seqTimerGroups s) (map tg_id (TimerGroups d)) in
      let row := {| tg_id := id; tg_groupid := groupId; tg_timerid := timerId;
                    tg_userid := userId; tg_createdAt := clock w |} in
      (Ok tt,
       {| world := withDB w
            {| foreign_keys := foreign_keys d; Slugs := Slugs d;
               Users := Users d; seqUsers := seqUsers d; Timers := Timers d;
               Groups := Groups d;
               TimerGroups := (TimerGroups d ++ [row])%list |};
          Settings := Settings s; seqTimers := seqTimers s;
          seqGroups := seqGroups s; seqTimerGroups := id;
          uuid := uuid s; uuids := uuids s |}).

(** A store over the sample world: the version row, counters at the ids
    in use, and a fixed source of secrets. *)
Definition sampleStore : Store :=
  {| world := sampleWorld;
     Settings := [("version", NumberValue 1)];
     seqTimers := 2; seqGroups := 2; seqTimerGroups := 2;
     uuid := fun k => "uuid-" ++ numberToString (Z.of_nat k);
     uuids := 0 |}.

(** The same store over the world whose first candidate is a slug in
    use. *)
Definition collidingStore : Store :=
  {| world := collidingWorld;
     Settings := [("version", NumberValue 1)];
     seqTimers := 2; seqGroups := 2; seqTimerGroups := 2;
     uuid := fun k => "uuid-" ++ numberToString (Z.of_nat k);
     uuids := 0 |}.

(** ** Vocabulary of the further statements *)

(** Every slug carried by a user, a timer or a group is in the registry. *)
Definition slugsRegistered (d : DB) : Prop :=
  (forall u, In u (Users d) -> In (user_slug u) (Slugs d))
  /\ (forall t, In t (Timers d) -> In (timer_slug t) (Slugs d))
  /\ (forall g, In g (Groups d) -> In (g_slug g) (Slugs d)).

(** The invariants of the loop of [getGroups] behind its further
    properties.  Soundness: a group of the object carries the columns of a
    group row of the join under its key, and each of its timers comes from
    a row of the join for that key. *)
Definition groupsSound (rows : list (GroupRow * Timer)) (o : JsObject Group) : Prop :=
  forall k grp, In (k, grp) o ->
    (exists g t, In (g, t) rows /\ g_id g = k
       /\ group_id grp = g_id g /\ group_title grp = g_title g
       /\ group_slug grp = g_slug g /\ group_createdAt grp = g_createdAt g)
    /\ (forall t, In t (group_timers grp) ->
          exists g, In (g, t) rows /\ g_id g = k).

(** Completeness: the timer of every row visited is on the group the
    object holds under the id of the row. *)
Definition groupsComplete (done : list (GroupRow * Timer)) (o : JsObject Group) : Prop :=
  forall g t, In (g, t) done ->
    exists grp, objGet o (g_id g) = Some grp /\ In t (group_timers grp).

(** What [getGroups] returns on a database. *)
Definition groupsOf (userId : Z) (d : DB) : list Group :=
  sortBy group_createdAt
    (objectValues (fold_left getGroupsStep (getGroupsRows userId d) [])).

(** * Properties of the duration bucketizer *)

Section Bucketizer.

(** One turn of the loop on a non-negative [diff]: the quantity is not
    negative and what is left is below the scale. *)
Lemma floor_step (diff s : Z) :
  0 <= diff -> 0 < s ->
  0 <= diff / s /\ 0 <= diff - diff / s * s < s.
Proof.
  intros Hd Hs. split.
  - apply Z.div_pos; lia.
  - pose proof (Z.mod_pos_bound diff s Hs) as Hm.
    rewrite Z.mod_eq in Hm by lia. lia.
Qed.

(** The loop over the five units, written out. *)
Lemma bucketLoop_units (d : Z) :
  bucketLoop units d [] =
  let q1 := d / 31536000 in let d1 := d - q1 * 31536000 in
  let q2 := d1 / 604800 in let d2 := d1 - q2 * 604800 in
  let q3 := d2 / 86400 in let d3 := d2 - q3 * 86400 in
  let q4 := d3 / 86400 in let d4 := d3 - q4 * 86400 in
  let q5 := d4 / 60 in let d5 := d4 - q5 * 60 in
  let b1 := if 0 <? q1 then [mkScale "Year" q1] else [] in
  let b2 := if (0 <? q2) || (0 <? List.length b1)%nat
            then (b1 ++ [mkScale "Week" q2])%list else b1 in
  let b3 := if (0 <? q3) || (0 <? List.length b2)%nat
            then (b2 ++ [mkScale "Day" q3])%list else b2 in
  let b4 := if (0 <? q4) || (0 <? List.length b3)%nat
            then (b3 ++ [mkScale "Hour" q4])%list else b3 in
  let b5 := if (0 <? q5) || (0 <? List.length b4)%nat
            then (b4 ++ [mkScale "Minute" q5])%list else b4 in
  (b5, d5).
Proof.
  unfold units. cbn [bucketLoop name scale List.length Nat.ltb Nat.leb orb app].
  change (365 * 24 * 3600) with 31536000.
  change (7 * 24 * 3600) with 604800.
  change (24 * 3600) with 86400.
  rewrite orb_false_r. reflexivity.
Qed.

(** Names the five quantities and remainders of a run on [d >= 0] and
    records their bounds, leaving the quotients abstract. *)
Ltac name_steps d Hd :=
  rewrite (bucketLoop_units d); cbv zeta;
  destruct (floor_step d 31536000 Hd eq_refl) as [Hq1 Hr1];
  remember (d / 31536000) as q1 eqn:Eq1 in *;
  remember (d - q1 * 31536000) as d1 eqn:Ed1 in *;
  destruct (floor_step d1 604800 (proj1 Hr1) eq_refl) as [Hq2 Hr2];
  remember (d1 / 604800) as q2 eqn:Eq2 in *;
  remember (d1 - q2 * 604800) as d2 eqn:Ed2 in *;
  destruct (floor_step d2 86400 (proj1 Hr2) eq_refl) as [Hq3 Hr3];
  remember (d2 / 86400) as q3 eqn:Eq3 in *;
  remember (d2 - q3 * 86400) as d3 eqn:Ed3 in *;
  destruct (floor_step d3 86400 (proj1 Hr3) eq_refl) as [Hq4 Hr4];
  remember (d3 / 86400) as q4 eqn:Eq4 in *;
  remember (d3 - q4 * 86400) as d4 eqn:Ed4 in *;
  destruct (floor_step d4 60 (proj1 Hr4) eq_refl) as [Hq5 Hr5];
  remember (d4 / 60) as q5 eqn:Eq5 in *;
  remember (d4 - q5 * 60) as d5 eqn:Ed5 in *;
  clear Eq1 Eq2 Eq3 Eq4 Eq5.

Ltac bucket_cases :=
  repeat match goal with
         | |- context [0 <? ?q] =>
             let E := fresh "E" in
             destruct (0 <? q) eqn:E;
             [ apply Z.ltb_lt in E | apply Z.ltb_ge in E ]
         end.

(** C6.  For every duration [d >= 0], the counts of the buckets of
    [bucketTimes d], each multiplied by the scale the table holds for its
    unit, add up with the remainder of the loop to [d], and the remainder
    is at least 0 and below 60. *)
Theorem bucketTimes_sum (d : Z) :
  0 <= d ->
  bucketSeconds (bucketTimes d) + bucketRemainder d = d
  /\ 0 <= bucketRemainder d < 60.
Proof.
  intros Hd. unfold bucketTimes, bucketRemainder.
  name_steps d Hd.
  bucket_cases; cbn; lia.
Qed.

Lemma bucketTimes_sum_witness :
  0 <= 90061
  /\ bucketSeconds (bucketTimes 90061) + bucketRemainder 90061 = 90061
  /\ 0 <= bucketRemainder 90061 < 60.
Proof.
  split; [lia | apply (bucketTimes_sum 90061); lia].
Defined.

(** The table runs from the largest scale to the smallest (Day and Hour
    hold the same one). *)
Lemma units_descending :
  StronglySorted (fun a b => scale b <= scale a) units.
Proof.
  unfold units. repeat constructor; simpl; lia.
Qed.





Example bucketTimes_90061 :
  bucketTimes 90061 =
  [mkScale "Day" 1; mkScale "Hour" 0; mkScale "Minute" 61].
Proof. reflexivity. Qed.

End Bucketizer.

(** * Properties of the format strategies *)

Section Formatters.

Lemma elapsed (now s : Z) : now - (now - s) = s.
Proof. lia. Qed.

(** The strategies at indices 1 and 2, as [formatTime] runs them. *)
Lemma formatTime_one_unit (now epoch : Z) :
  formatTime now epoch (Some 1) =
  match bucketTimes (now - epoch) with
  | [] => Ok "-"
  | b :: _ => Ok (scaleToStr b)
  end.
Proof. reflexivity. Qed.

Lemma formatTime_two_units (now epoch : Z) :
  formatTime now epoch (Some 2) =
  match bucketTimes (now - epoch) with
  | [] => Ok "-"
  | b1 :: [] => Ok (scaleToStr b1)
  | b1 :: b2 :: _ => Ok (scaleToStr b1 ++ ", " ++ scaleToStr b2)
  end.
Proof. reflexivity. Qed.

(** C2.  The table holds 24 * 3600 seconds for the Hour, the scale of the
    Day, not 3600; and on a timer reset 3661 seconds ago the Two Units
    strategy renders "61 Minutes" whatever the clock reads: the hour is
    never counted. *)
Theorem two_units_3661 (now : Z) :
  unitSeconds "Hour" = 86400
  /\ unitSeconds "Hour" = unitSeconds "Day"
  /\ nth_error listFormatters 2 = Some "Two Units"
  /\ formatTime now (now - 3661) (Some 2) = Ok "61 Minutes".
Proof.
  repeat split.
  rewrite formatTime_two_units, elapsed. reflexivity.
Qed.

(** The registry, by index. *)
Lemma listFormatters_names :
  listFormatters =
  ["Show Epoch"; "One Unit"; "Two Units";
   "Years"; "Weeks"; "Days"; "Hours"; "Minutes"].
Proof. reflexivity. Qed.

(** What a formatter made by [makeScaleFormatter] renders. *)
Lemma makeScaleFormatter_eq (nm : string) (epoch now : Z) :
  makeScaleFormatter nm epoch now =
  Ok (scaleToStr {| name := nm; scale := (now - epoch) / unitSeconds "Year" |}).
Proof. reflexivity. Qed.

(** C3.  Every single-scale strategy divides the elapsed seconds by the
    scale the table holds for the Year, whatever unit it is named for, and
    not by the scale of its own unit.  So on a timer reset exactly one
    week ago Weeks renders "0 Weeks", where the scale of the Week gives 1;
    and on a timer reset 3661 seconds ago the strategy at index 5, which
    is Days, renders "0 Days", and Hours, which is at index 6, renders
    "0 Hours". *)
Theorem single_scale_divides_by_year (now epoch : Z) :
  Forall
    (fun '(i, nm) =>
       formatTime now epoch (Some i)
       = Ok (scaleToStr {| name := nm;
                           scale := (now - epoch) / unitSeconds "Year" |}))
    [(3, "Year"); (4, "Week"); (5, "Day"); (6, "Hour"); (7, "Minute")]
  /\ formatTime 1700604800 1700000000 (Some 4) = Ok "0 Weeks"
  /\ (1700604800 - 1700000000) / unitSeconds "Week" = 1
  /\ nth_error listFormatters 5 = Some "Days"
  /\ nth_error listFormatters 6 = Some "Hours"
  /\ formatTime 1700003661 1700000000 (Some 5) = Ok "0 Days"
  /\ formatTime 1700003661 1700000000 (Some 6) = Ok "0 Hours".
Proof.
  split; [ repeat constructor | repeat split ].
Qed.

(** The One Unit strategy always renders. *)
Lemma one_unit_renders (now epoch : Z) :
  exists s, formatTime now epoch (Some 1) = Ok s.
Proof.
  rewrite formatTime_one_unit.
  destruct (bucketTimes (now - epoch)) as [|b bs]; eauto.
Qed.

(** C9.  For every clock reading, every epoch and every format that is
    missing, negative, or at or past the end of the registry, [formatTime]
    returns what the strategy at index 1 of the registry returns on that
    epoch and clock; that strategy is the one named One Unit, and what it
    returns is the first bucket of the elapsed time rendered, or "-" when
    there is none: never an error. *)
Theorem formatTime_fallback (now epoch : Z) (format : option Z) :
  (format = None
   \/ exists z, format = Some z
        /\ (z < 0 \/ Z.of_nat (List.length formatters) <= z)) ->
  exists oneUnit : Formatter,
    nth_error formatters 1 = Some ("One Unit", oneUnit)
    /\ formatTime now epoch format = oneUnit epoch now
    /\ oneUnit epoch now
       = match bucketTimes (now - epoch) with
         | [] => Ok "-"
         | b :: _ => Ok (scaleToStr b)
         end
    /\ exists s, formatTime now epoch format = Ok s.
Proof.
  intros Hbad.
  assert (Hget : arrayGet formatters format = None).
  { destruct Hbad as [-> | (z & -> & [Hneg | Hbig])].
    - reflexivity.
    - unfold arrayGet. destruct (0 <=? z) eqn:E; [ | reflexivity ].
      apply Z.leb_le in E. lia.
    - unfold arrayGet. destruct (0 <=? z) eqn:E; [ | reflexivity ].
      apply nth_error_None. lia. }
  eexists. split; [ reflexivity | ].
  assert (Heq : formatTime now epoch format
                = match bucketTimes (now - epoch) with
                  | [] => Ok "-"
                  | b :: _ => Ok (scaleToStr b)
                  end).
  { unfold formatTime. rewrite Hget. reflexivity. }
  split; [ exact Heq | ]. split; [ reflexivity | ].
  rewrite Heq. destruct (bucketTimes (now - epoch)); eauto.
Qed.

Lemma formatTime_fallback_witness :
  exists oneUnit : Formatter,
    nth_error formatters 1 = Some ("One Unit", oneUnit)
    /\ formatTime 1700003661 1700000000 (Some 8)
       = oneUnit 1700000000 1700003661
    /\ oneUnit 1700000000 1700003661
       = match bucketTimes (1700003661 - 1700000000) with
         | [] => Ok "-"
         | b :: _ => Ok (scaleToStr b)
         end
    /\ exists s, formatTime 1700003661 1700000000 (Some 8) = Ok s.
Proof.
  apply (formatTime_fallback 1700003661 1700000000 (Some 8)).
  right. exists 8. split; [ reflexivity | right; simpl; lia ].
Defined.

Example formatTime_out_of_range :
  formatTime 1700003661 1700000000 (Some 8) = Ok "61 Minutes"
  /\ formatTime 1700003661 1700000000 (Some (-1)) = Ok "61 Minutes"
  /\ formatTime 1700000030 1700000000 (Some 8) = Ok "-".
Proof. repeat split. Qed.

Example formatTime_show_epoch :
  formatTime 1700003661 1700000000 (Some 0) = Ok "1700000000".
Proof. reflexivity. Qed.

Example formatTime_missing :
  formatTime 1700003661 1700000000 None = Ok "61 Minutes".
Proof. reflexivity. Qed.

End Formatters.

(** * Properties of the store *)

(** ** Sorting and JavaScript objects keep their elements *)

Lemma In_insertBy {A : Type} (key : A -> Z) (x a : A) (l : list A) :
  In a (insertBy key x l) <-> a = x \/ In a l.
Proof.
  induction l as [|y l IH]; simpl.
  - intuition.
  - destruct (key x <=? key y); simpl; rewrite ?IH; intuition.
Qed.

Lemma In_sortBy {A : Type} (key : A -> Z) (a : A) (l : list A) :
  In a (sortBy key l) <-> In a l.
Proof.
  induction l as [|y l IH]; simpl.
  - reflexivity.
  - rewrite In_insertBy, IH. intuition.
Qed.

Section Containers.

Context {A : Type}.

Lemma In_objectValues (o : JsObject A) (v : A) :
  In v (objectValues o) <-> exists k, In (k, v) o.
Proof.
  unfold objectValues. rewrite in_app_iff, !in_map_iff. split.
  - intros [((k, v') & Hv & Hin) | ((k, v') & Hv & Hin)]; simpl in Hv; subst v'.
    + apply In_sortBy, filter_In in Hin. exists k. tauto.
    + apply filter_In in Hin. exists k. tauto.
  - intros [k Hin]. destruct (isArrayIndex k) eqn:E.
    + left. exists (k, v). split; [ reflexivity | ].
      apply In_sortBy, filter_In. simpl. tauto.
    + right. exists (k, v). split; [ reflexivity | ].
      apply filter_In. simpl. rewrite E. tauto.
Qed.

Lemma objGet_In (o : JsObject A) (k : Z) (v : A) :
  objGet o k = Some v -> In (k, v) o.
Proof.
  unfold objGet. destruct (find _ o) as [[k' v']|] eqn:E; [ | discriminate ].
  simpl. intros [= <-]. apply find_some in E. simpl in E.
  destruct E as [Hin Hk]. apply Z.eqb_eq in Hk. subst k'. exact Hin.
Qed.

Lemma In_objSet (o : JsObject A) (k : Z) (v : A) (k' : Z) (v' : A) :
  In (k', v') (objSet o k v) -> (k' = k /\ v' = v) \/ In (k', v') o.
Proof.
  induction o as [|[k0 v0] o IH]; simpl.
  - intros [[= <- <-] | []]. left. tauto.
  - destruct (k0 =? k) eqn:E; simpl.
    + intros [[= <- <-] | Hin]; [ left | right; right ]; tauto.
    + intros [Heq | Hin]; [ right; left; exact Heq | ].
      destruct (IH Hin); tauto.
Qed.

End Containers.

(** ** Groups and their members *)

Section GetGroups.

Variable userId : Z.
Variable d : DB.

(** What a row of the join says about the tables. *)
Lemma In_getGroupsRows (g : GroupRow) (t : Timer) :
  In (g, t) (getGroupsRows userId d) ->
  In g (Groups d) /\ In t (Timers d) /\ g_userid g = userId
  /\ exists tg, In tg (TimerGroups d)
       /\ tg_groupid tg = g_id g /\ tg_timerid tg = timer_id t.
Proof.
  unfold getGroupsRows. rewrite in_flat_map.
  intros (g' & Hg & Hin). rewrite in_flat_map in Hin.
  destruct Hin as (tg & Htg & Hin). rewrite in_flat_map in Hin.
  destruct Hin as (t' & Ht & Hin).
  destruct ((tg_groupid tg =? g_id g') && (tg_timerid tg =? timer_id t')
            && (g_userid g' =? userId)) eqn:E; [ | destruct Hin ].
  destruct Hin as [[= <- <-] | []].
  apply andb_prop in E. destruct E as [E Eu].
  apply andb_prop in E. destruct E as [Eg Et].
  apply Z.eqb_eq in Eu, Eg, Et. eauto 10.
Qed.

Lemma getGroupsStep_inv (rows : list (GroupRow * Timer)) (o : JsObject Group)
    (row : GroupRow * Timer) :
  groupsInv rows o -> In row rows -> groupsInv rows (getGroupsStep o row).
Proof.
  intros Hinv Hrow k grp Hin. destruct row as [g t].
  unfold getGroupsStep in Hin. apply In_objSet in Hin.
  destruct Hin as [[-> ->] | Hin]; [ | exact (Hinv k grp Hin) ].
  simpl. split; [ | split ].
  - destruct (objGet o (g_id g)) as [grp0|] eqn:E; [ | reflexivity ].
    apply objGet_In in E. apply (Hinv _ _ E).
  - intros Habs. apply app_eq_nil in Habs. destruct Habs as [_ Habs].
    discriminate Habs.
  - exists g, t. tauto.
Qed.

Lemma fold_getGroupsStep_inv (rows todo : list (GroupRow * Timer))
    (o : JsObject Group) :
  groupsInv rows o -> incl todo rows ->
  groupsInv rows (fold_left getGroupsStep todo o).
Proof.
  revert o. induction todo as [|row todo IH]; intros o Hinv Hincl; simpl.
  - exact Hinv.
  - apply IH.
    + apply getGroupsStep_inv; [ exact Hinv | apply Hincl; left; reflexivity ].
    + intros x Hx. apply Hincl. right. exact Hx.
Qed.

End GetGroups.

(** C10.  [getGroups userId] returns, without touching the world, only
    groups that hold at least one timer and whose id is the group id of a
    membership row of the table; so a row of [Groups] that no membership
    row points at is not among the groups returned. *)
Theorem getGroups_only_groups_with_members (userId : Z) (w : World) :
  exists groups : list Group,
    getGroups userId w = (Ok groups, w)
    /\ (forall g, In g groups ->
          group_timers g <> []
          /\ exists tg, In tg (TimerGroups (db w))
               /\ tg_groupid tg = group_id g)
    /\ (forall grow, In grow (Groups (db w)) ->
          (forall tg, In tg (TimerGroups (db w)) ->
             tg_groupid tg <> g_id grow) ->
          ~ In (g_id grow) (map group_id groups)).
Proof.
  eexists. split; [ reflexivity | ].
  set (rows := getGroupsRows userId (db w)).
  assert (Hinv : groupsInv rows (fold_left getGroupsStep rows [])).
  { apply fold_getGroupsStep_inv.
    - intros k grp [].
    - apply incl_refl. }
  assert (Hmem : forall g,
             In g (sortBy group_createdAt
                     (objectValues (fold_left getGroupsStep rows []))) ->
             group_timers g <> []
             /\ exists tg, In tg (TimerGroups (db w))
                  /\ tg_groupid tg = group_id g).
  { intros g Hg. apply In_sortBy, In_objectValues in Hg.
    destruct Hg as [k Hg]. destruct (Hinv k g Hg) as (Hid & Hne & gr & t & Hrow & Hk).
    split; [ exact Hne | ].
    apply In_getGroupsRows in Hrow.
    destruct Hrow as (_ & _ & _ & tg & Htg & Hgid & _).
    exists tg. split; [ exact Htg | congruence ]. }
  split; [ exact Hmem | ].
  intros grow Hgrow Hnone Hin. apply in_map_iff in Hin.
  destruct Hin as (g & Hid & Hg). destruct (Hmem g Hg) as (_ & tg & Htg & Hgid).
  apply (Hnone tg Htg). congruence.
Qed.

Example getGroups_sample :
  getGroups 2 sampleWorld =
  (Ok [ {| group_id := 1; group_title := "Home"; group_slug := "Grp222";
           group_createdAt := 1700000200;
           group_timers := [sampleTimer2; sampleTimer1] |} ],
   sampleWorld).
Proof. reflexivity. Qed.

(** ** Deleting by owner *)

Section Deleting.

Lemma filter_keeps_all {A : Type} (f : A -> bool) (l : list A) :
  (forall x, In x l -> f x = true) -> filter f l = l.
Proof.
  induction l as [|x l IH]; simpl; intros H.
  - reflexivity.
  - rewrite (H x (or_introl eq_refl)), IH; [ reflexivity | ].
    intros y Hy. apply H. right. exact Hy.
Qed.

Lemma filter_keeps_none {A : Type} (f : A -> bool) (l : list A) :
  (forall x, In x l -> f x = false) -> filter f l = [].
Proof.
  induction l as [|x l IH]; simpl; intros H.
  - reflexivity.
  - rewrite (H x (or_introl eq_refl)). apply IH.
    intros y Hy. apply H. right. exact Hy.
Qed.

(** With no timer gone, the cascade leaves the memberships alone. *)
Lemma cascadeTimers_nil (d : DB) : cascadeTimers d [] = TimerGroups d.
Proof.
  unfold cascadeTimers. destruct (foreign_keys d); [ | reflexivity ].
  apply filter_keeps_all. reflexivity.
Qed.

(** [deleteTimer] does filter by owning-user id together with the slug:
    when no timer of that slug belongs to the caller, the call returns
    without an error and leaves the whole world, every table of the
    database included, as it was. *)
Theorem deleteTimer_non_owner (userId : Z) (slug : string) (w : World) :
  (forall t, In t (Timers (db w)) ->
     timer_slug t = slug -> timer_userid t <> userId) ->
  deleteTimer userId slug w = (Ok tt, w).
Proof.
  intros Hown.
  assert (Hmiss : forall t, In t (Timers (db w)) ->
            (timer_userid t =? userId) && String.eqb (timer_slug t) slug = false).
  { intros t Ht. destruct (String.eqb_spec (timer_slug t) slug) as [Hs | Hs].
    - rewrite andb_true_r. apply Z.eqb_neq. exact (Hown t Ht Hs).
    - apply andb_false_r. }
  unfold deleteTimer, bind, getDB, putDB.
  rewrite (filter_keeps_none _ _ Hmiss), cascadeTimers_nil.
  rewrite filter_keeps_all.
  - destruct w as [[fk sl us sq ts gs tgs] c r n]. reflexivity.
  - intros t Ht. rewrite (Hmiss t Ht). reflexivity.
Qed.

Lemma deleteTimer_non_owner_witness :
  deleteTimer 1 "Tmr222" sampleWorld = (Ok tt, sampleWorld).
Proof.
  apply (deleteTimer_non_owner 1 "Tmr222" sampleWorld).
  intros t Ht _. simpl in Ht.
  destruct Ht as [<- | [<- | []]]; simpl; lia.
Defined.

(** The owner's own call does delete. *)
Example deleteTimer_owner :
  Timers (db (snd (deleteTimer 2 "Tmr222" sampleWorld))) = [sampleTimer2].
Proof. reflexivity. Qed.

(** C4.  [deleteGroup] is given the slug only and deletes by it, where
    its sibling [deleteTimer] deletes by owner and slug: in the sample
    database, where the group of slug "Grp222" belongs to user 2, the call
    returns without an error and the row is gone, for user 1 as for any
    caller; [deleteTimer] by user 1 on a timer of user 2 deletes
    nothing. *)
Theorem deleteGroup_ignores_owner :
  In sampleGroup1 (Groups (db sampleWorld))
  /\ g_userid sampleGroup1 = 2
  /\ g_slug sampleGroup1 = "Grp222"
  /\ fst (deleteGroup "Grp222" sampleWorld) = Ok tt
  /\ Groups (db (snd (deleteGroup "Grp222" sampleWorld))) = [sampleGroup2]
  /\ ~ In sampleGroup1 (Groups (db (snd (deleteGroup "Grp222" sampleWorld))))
  /\ timer_userid sampleTimer1 = 2
  /\ deleteTimer 1 (timer_slug sampleTimer1) sampleWorld = (Ok tt, sampleWorld).
Proof.
  repeat split; try reflexivity.
  - left. reflexivity.
  - simpl. intros [H | []]. discriminate H.
Qed.

(** Whatever the database, [deleteGroup] leaves no group of the slug,
    whoever owns it. *)
Lemma deleteGroup_removes_every_owner (slug : string) (w : World) (g : GroupRow) :
  g_slug g = slug ->
  fst (deleteGroup slug w) = Ok tt
  /\ ~ In g (Groups (db (snd (deleteGroup slug w)))).
Proof.
  intros Hs. split; [ reflexivity | ].
  cbn [deleteGroup bind getDB putDB snd db Groups]. intros Hin.
  apply filter_In in Hin. destruct Hin as [_ Hn].
  rewrite Hs, String.eqb_refl in Hn. discriminate Hn.
Qed.

End Deleting.

(** ** Timers by slug *)

Section TimersBySlug.

(** SQLite refuses the statement of [getTimersBySlug] for every slug and
    every database: its first SELECT carries an ORDER BY and is followed
    by UNION ALL. *)
Lemma getTimersBySlug_rejected (slug : string) (w : World) :
  getTimersBySlug slug w =
  (Throw "SQLITE_ERROR: ORDER BY clause should come after UNION ALL not before",
   w).
Proof. reflexivity. Qed.

(** C1.  In the sample database the group of slug "Grp222" holds exactly
    two timers, which the first SELECT of the statement picks on its own;
    yet [getTimersBySlug "Grp222"] returns no timers at all: the statement
    is refused and the call throws. *)
Theorem getTimersBySlug_group_of_two :
  groupArmRows (Some "Grp222") sampleDB = [sampleTimer2; sampleTimer1]
  /\ timerArmRows (Some "Grp222") sampleDB = []
  /\ fst (getTimersBySlug "Grp222" sampleWorld)
     = Throw "SQLITE_ERROR: ORDER BY clause should come after UNION ALL not before"
  /\ snd (getTimersBySlug "Grp222" sampleWorld) = sampleWorld.
Proof. repeat split. Qed.

Lemma flat_map_nil {A B : Type} (f : A -> list B) (l : list A) :
  (forall x, f x = []) -> flat_map f l = [].
Proof.
  intros H. induction l as [|x l IH]; simpl; [ reflexivity | ].
  rewrite H, IH. reflexivity.
Qed.

(** The third SELECT reads the third argument, and the call passes two:
    the user branch compares with NULL and selects nothing. *)
Lemma userArmRows_unbound (slug : string) (d : DB) :
  userArmRows (nth_error [slug; slug] 2) d = [].
Proof.
  unfold userArmRows. simpl nth_error.
  apply flat_map_nil. intros u. apply flat_map_nil. intros t.
  unfold sqlEq. rewrite andb_false_r. reflexivity.
Qed.

End TimersBySlug.

(** ** The slug allocator *)

Section Strings.

Lemma append_nil_r (s : string) : s ++ "" = s.
Proof. induction s as [|c s IH]; simpl; [ reflexivity | now rewrite IH ]. Qed.

Lemma append_assoc (s1 s2 s3 : string) : (s1 ++ s2) ++ s3 = s1 ++ (s2 ++ s3).
Proof. induction s1 as [|c s1 IH]; simpl; [ reflexivity | now rewrite IH ]. Qed.

Lemma get_in_range (s : string) (i : nat) :
  (i < String.length s)%nat ->
  exists c, String.get i s = Some c /\ In c (list_ascii_of_string s).
Proof.
  revert i. induction s as [|c s IH]; simpl; intros i Hi.
  - lia.
  - destruct i as [|i].
    + exists c. split; [ reflexivity | left; reflexivity ].
    + destruct (IH i) as (c' & Hget & Hin); [ lia | ].
      exists c'. split; [ exact Hget | right; exact Hin ].
Qed.

Lemma charAt_in_range (i : nat) :
  (i < String.length slugChars)%nat ->
  exists c, charAt slugChars i = String c ""
            /\ In c (list_ascii_of_string slugChars).
Proof.
  intros Hi. destruct (get_in_range slugChars i Hi) as (c & Hget & Hin).
  exists c. unfold charAt. rewrite Hget. split; [ reflexivity | exact Hin ].
Qed.

Variable rnd : nat -> nat.
Hypothesis rnd_range : forall k, (rnd k < String.length slugChars)%nat.

Lemma drawString_length (start n : nat) :
  String.length (drawString rnd start n) = n.
Proof.
  revert start. induction n as [|n IH]; intros start; simpl drawString.
  - reflexivity.
  - destruct (charAt_in_range (rnd start) (rnd_range start)) as (c & -> & _).
    simpl. now rewrite IH.
Qed.

Lemma drawString_inAlphabet (start n : nat) :
  inAlphabet (drawString rnd start n).
Proof.
  unfold inAlphabet. revert start.
  induction n as [|n IH]; intros start; simpl drawString.
  - constructor.
  - destruct (charAt_in_range (rnd start) (rnd_range start)) as (c & -> & Hc).
    simpl. constructor; [ exact Hc | apply IH ].
Qed.

End Strings.

Section CreateSlug.

Lemma advance_0 (w : World) : advance w 0 = w.
Proof. destruct w as [d c r n]. unfold advance. simpl. now rewrite Nat.add_0_r. Qed.

Lemma advance_advance (w : World) (n m : nat) :
  advance (advance w n) m = advance w (n + m).
Proof. unfold advance. simpl. now rewrite Nat.add_assoc. Qed.

Lemma randomChars_spec (n : nat) (acc : string) (w : World) :
  randomChars n acc w
  = (Ok (acc ++ drawString (random w) (drawn w) n), advance w n).
Proof.
  revert acc w. induction n as [|n IH]; intros acc w.
  - simpl. unfold ret. now rewrite append_nil_r, advance_0.
  - cbn [randomChars drawString]. unfold bind, randomIndex. rewrite IH.
    cbn [random drawn]. rewrite append_assoc. unfold advance. cbn [db clock random drawn].
    now rewrite Nat.add_succ_r.
Qed.

Lemma existsb_eqb_In (s : string) (l : list string) :
  existsb (String.eqb s) l = true <-> In s l.
Proof.
  rewrite existsb_exists. split.
  - intros (x & Hin & Heq). apply String.eqb_eq in Heq. now subst.
  - intros Hin. exists s. split; [ exact Hin | apply String.eqb_refl ].
Qed.

(** One attempt: the candidate is read and inserted unless the registry
    holds it; the [lastID] of the run is defined either way, so the
    candidate is returned and the loop goes no further. *)
Lemma attemptLoop_S (n len : nat) (w : World) :
  attemptLoop (S n) len w =
  let slug := drawString (random w) (drawn w) len in
  (Ok (Some slug),
   if existsb (String.eqb slug) (Slugs (db w))
   then advance w len
   else registered w slug (drawn w + len)).
Proof.
  cbn [attemptLoop]. unfold bind at 1. rewrite randomChars_spec.
  cbn [append]. unfold bind at 1. unfold insertOrIgnoreSlug, bind at 1, getDB.
  cbn [advance db]. cbv zeta.
  destruct (existsb _ (Slugs (db w))); reflexivity.
Qed.

(** [createSlug] returns the first candidate of length 6 it draws,
    registered already or not; no second attempt is made, no longer slug
    is tried and nothing is thrown. *)
Lemma createSlug_eq (w : World) :
  createSlug w =
  let slug := drawString (random w) (drawn w) 6 in
  (Ok slug,
   if existsb (String.eqb slug) (Slugs (db w))
   then advance w 6
   else registered w slug (drawn w + 6)).
Proof.
  unfold createSlug. cbn [lengthLoop]. unfold bind at 1.
  rewrite attemptLoop_S. reflexivity.
Qed.

(** What a call leaves alone, and what it does to the registry. *)
Lemma createSlug_frame (w : World) :
  Users (db (snd (createSlug w))) = Users (db w)
  /\ seqUsers (db (snd (createSlug w))) = seqUsers (db w)
  /\ Timers (db (snd (createSlug w))) = Timers (db w)
  /\ Groups (db (snd (createSlug w))) = Groups (db w)
  /\ TimerGroups (db (snd (createSlug w))) = TimerGroups (db w)
  /\ foreign_keys (db (snd (createSlug w))) = foreign_keys (db w)
  /\ clock (snd (createSlug w)) = clock w
  /\ random (snd (createSlug w)) = random w.
Proof.
  rewrite createSlug_eq. cbv zeta. cbn [snd].
  destruct (existsb _ (Slugs (db w))); repeat split.
Qed.

Lemma createSlug_registered (w : World) (slug : string) (w' : World) :
  createSlug w = (Ok slug, w') ->
  slug = drawString (random w) (drawn w) 6
  /\ In slug (Slugs (db w'))
  /\ (In slug (Slugs (db w)) -> Slugs (db w') = Slugs (db w))
  /\ (~ In slug (Slugs (db w)) ->
        Slugs (db w') = (Slugs (db w) ++ [slug])%list).
Proof.
  rewrite createSlug_eq. cbv zeta. intros [= <- <-].
  split; [ reflexivity | ].
  destruct (existsb _ (Slugs (db w))) eqn:E.
  - apply existsb_eqb_In in E. cbn [advance db].
    split; [ exact E | ]. split; [ reflexivity | ]. intros Hn. contradiction.
  - cbn [registered db withSlugs Slugs]. split.
    + apply in_or_app. right. left. reflexivity.
    + split; [ | reflexivity ]. intros Hin.
      apply existsb_eqb_In in Hin. congruence.
Qed.

Lemma createSlug_never_throws (w : World) (msg : string) (w' : World) :
  createSlug w <> (Throw msg, w').
Proof. rewrite createSlug_eq. cbv zeta. discriminate. Qed.

End CreateSlug.

Section CreateSlugCalls.

(** A returned slug has six characters, all of the alphabet. *)
Lemma createSlug_returns (w : World) (s : string) (w' : World) :
  drawsInRange w ->
  createSlug w = (Ok s, w') ->
  inAlphabet s /\ String.length s = 6%nat.
Proof.
  intros Hr E. apply createSlug_registered in E. destruct E as (-> & _).
  split; [ apply drawString_inAlphabet; exact Hr | ].
  apply drawString_length. exact Hr.
Qed.

Lemma stuckWorld_drawsInRange : drawsInRange stuckWorld.
Proof. intros k. cbn. lia. Qed.

(** C5.  [createSlug] returns the first candidate it draws whether the
    registry holds it or not, because the [lastID] it tests is defined
    after every run: the registry is then left as it was.  On a random
    source that repeats its draws, four calls in a row return the same
    slug four times, so the slugs returned are not pairwise distinct; and
    a slug that was registered before the call is returned all the
    same. *)
Theorem createSlug_repeats_slugs :
  (forall w slug, In slug (Slugs (db w)) ->
     drawString (random w) (drawn w) 6 = slug ->
     fst (createSlug w) = Ok slug
     /\ Slugs (db (snd (createSlug w))) = Slugs (db w))
  /\ drawsInRange stuckWorld
  /\ fst (createSlugCalls 4 stuckWorld)
     = [Ok "AAAAAA"; Ok "AAAAAA"; Ok "AAAAAA"; Ok "AAAAAA"]
  /\ ~ NoDup (returned (fst (createSlugCalls 4 stuckWorld)))
  /\ Slugs (db (snd (createSlugCalls 4 stuckWorld)))
     = (Slugs sampleDB ++ ["AAAAAA"])%list.
Proof.
  split; [ | split; [ exact stuckWorld_drawsInRange | ] ].
  - intros w slug Hin Hdraw. rewrite createSlug_eq. cbv zeta. cbn [fst snd].
    rewrite Hdraw.
    assert (E : existsb (String.eqb slug) (Slugs (db w)) = true)
      by (apply existsb_eqb_In; exact Hin).
    rewrite E. split; reflexivity.
  - split; [ vm_compute; reflexivity | ]. split; [ | vm_compute; reflexivity ].
    replace (returned (fst (createSlugCalls 4 stuckWorld)))
      with ["AAAAAA"; "AAAAAA"; "AAAAAA"; "AAAAAA"] by (vm_compute; reflexivity).
    intros Hnd. inversion Hnd as [|x l Hnot _]. apply Hnot. left. reflexivity.
Qed.

(** On a source that does not repeat, the slugs differ. *)
Example createSlugCalls_sample :
  fst (createSlugCalls 2 sampleWorld) = [Ok "ABCDEF"; Ok "GHJKLM"].
Proof. vm_compute. reflexivity. Qed.

End CreateSlugCalls.

(** ** Users *)

Section GetOrCreateUser.

Variable email : string.

Lemma hasEmail_eq (u : User) : hasEmail email u = true -> user_email u = email.
Proof. unfold hasEmail. apply String.eqb_eq. Qed.

Lemma find_app_last {A : Type} (f : A -> bool) (l : list A) (y : A) :
  (forall x, In x l -> f x = false) -> f y = true ->
  find f (l ++ [y]) = Some y.
Proof.
  intros Hl Hy. induction l as [|x l IH]; simpl.
  - now rewrite Hy.
  - rewrite (Hl x (or_introl eq_refl)). apply IH.
    intros z Hz. apply Hl. right. exact Hz.
Qed.

Lemma existsb_false_all {A : Type} (f : A -> bool) (l : list A) :
  existsb f l = false -> forall x, In x l -> f x = false.
Proof.
  intros H x Hx. destruct (f x) eqn:E; [ | reflexivity ].
  rewrite <- H. symmetry. apply existsb_exists. eauto.
Qed.


(** [getOrCreateUser], written out: the slug is allocated, the insert
    draws the next id and moves the counter, and the first row of the
    email is read back. *)
Lemma getOrCreateUser_eq (w : World) :
  getOrCreateUser email w =
  let slug := drawString (random w) (drawn w) 6 in
  let w1 := snd (createSlug w) in
  let id := nextRowid (seqUsers (db w)) (map user_id (Users (db w))) in
  let users :=
    if existsb (hasEmail email) (Users (db w))
    then Users (db w)
    else (Users (db w)
          ++ [ {| user_id := id; user_email := email; user_slug := slug |} ])%list in
  let w2 :=
    withDB w1
      {| foreign_keys := foreign_keys (db w); Slugs := Slugs (db w1);
         Users := users; seqUsers := id; Timers := Timers (db w);
         Groups := Groups (db w); TimerGroups := TimerGroups (db w) |} in
  match find (hasEmail email) users with
  | Some res =>
      (Ok {| user_id := user_id res; user_email := email;
             user_slug := user_slug res |}, w2)
  | None => (Throw "TypeError: Cannot read properties of undefined", w2)
  end.
Proof.
  unfold getOrCreateUser. unfold bind at 1. rewrite createSlug_eq. cbv zeta.
  cbn [snd].
  destruct (existsb (String.eqb (drawString (random w) (drawn w) 6))
              (Slugs (db w)));
    cbv beta iota zeta delta
      [bind insertOrIgnoreUser getDB putDB ret throw advance registered
       withSlugs withDB db Users seqUsers foreign_keys Slugs Timers Groups
       TimerGroups clock random drawn];
    match goal with
    | |- context [find ?f ?l] => destruct (find f l)
    end; reflexivity.
Qed.



End GetOrCreateUser.


(** Two calls in a row on the sample world: the second returns the record
    of the first and adds no row, though it registers one more slug. *)
Example getOrCreateUser_twice :
  let r1 := getOrCreateUser "cat@example.org" sampleWorld in
  let r2 := getOrCreateUser "cat@example.org" (snd r1) in
  fst r1 = Ok {| user_id := 3; user_email := "cat@example.org";
                 user_slug := "ABCDEF" |}
  /\ fst r2 = fst r1
  /\ Users (db (snd r2)) = Users (db (snd r1))
  /\ List.length (Users (db (snd r2))) = 3%nat
  /\ Slugs (db (snd r2)) = (Slugs sampleDB ++ ["ABCDEF"; "GHJKLM"])%list.
Proof. vm_compute. repeat split. Qed.

(** * Further properties of the bucketizer and the format strategies *)

Section BucketizerBounds.

Ltac run_loop d Hd :=
  rewrite (bucketLoop_units d); cbv zeta;
  destruct (floor_step d 31536000 Hd eq_refl) as [Hq1 Hr1];
  remember (d / 31536000) as q1 eqn:Eq1 in *;
  remember (d - q1 * 31536000) as d1 eqn:Ed1 in *;
  destruct (floor_step d1 604800 (proj1 Hr1) eq_refl) as [Hq2 Hr2];
  remember (d1 / 604800) as q2 eqn:Eq2 in *;
  remember (d1 - q2 * 604800) as d2 eqn:Ed2 in *;
  destruct (floor_step d2 86400 (proj1 Hr2) eq_refl) as [Hq3 Hr3];
  remember (d2 / 86400) as q3 eqn:Eq3 in *;
  remember (d2 - q3 * 86400) as d3 eqn:Ed3 in *;
  destruct (floor_step d3 86400 (proj1 Hr3) eq_refl) as [Hq4 Hr4];
  remember (d3 / 86400) as q4 eqn:Eq4 in *;
  remember (d3 - q4 * 86400) as d4 eqn:Ed4 in *;
  destruct (floor_step d4 60 (proj1 Hr4) eq_refl) as [Hq5 Hr5];
  remember (d4 / 60) as q5 eqn:Eq5 in *;
  remember (d4 - q5 * 60) as d5 eqn:Ed5 in *;
  clear Eq1 Eq2 Eq3 Eq4 Eq5.

Ltac split_cases :=
  repeat match goal with
         | |- context [0 <? ?q] =>
             let E := fresh "E" in
             destruct (0 <? q) eqn:E;
             [ apply Z.ltb_lt in E | apply Z.ltb_ge in E ]
         end.

(** X1.  On a duration [d >= 0] no count is negative, there are at most
    52 weeks, 6 days and 1439 minutes, and the count of hours is always
    0. *)
Theorem bucketTimes_bounds (d : Z) :
  0 <= d ->
  forall b, In b (bucketTimes d) ->
    0 <= scale b
    /\ (name b = "Week" -> scale b <= 52)
    /\ (name b = "Day" -> scale b <= 6)
    /\ (name b = "Hour" -> scale b = 0)
    /\ (name b = "Minute" -> scale b <= 1439).
Proof.
  intros Hd b. unfold bucketTimes. run_loop d Hd.
  split_cases; cbn [orb List.length Nat.ltb Nat.leb app fst In];
    intros Hin;
    repeat (destruct Hin as [<- | Hin];
            [ cbn [name scale];
              repeat split; try lia; intros Hn; try discriminate Hn; lia | ]);
    contradiction.
Qed.

Lemma bucketTimes_bounds_witness :
  0 <= scale (mkScale "Week" 13)
  /\ (name (mkScale "Week" 13) = "Week" -> scale (mkScale "Week" 13) <= 52)
  /\ (name (mkScale "Week" 13) = "Day" -> scale (mkScale "Week" 13) <= 6)
  /\ (name (mkScale "Week" 13) = "Hour" -> scale (mkScale "Week" 13) = 0)
  /\ (name (mkScale "Week" 13) = "Minute"
      -> scale (mkScale "Week" 13) <= 1439).
Proof.
  apply (bucketTimes_bounds 40000000 ltac:(lia) (mkScale "Week" 13)).
  right. left. reflexivity.
Defined.

Example bucketTimes_40000000 :
  bucketTimes 40000000 =
  [mkScale "Year" 1; mkScale "Week" 13; mkScale "Day" 6;
   mkScale "Hour" 0; mkScale "Minute" 1386].
Proof. reflexivity. Qed.

(** The units of the buckets, read off the size of the duration. *)
Lemma bucketTimes_names (d : Z) :
  0 <= d ->
  map name (bucketTimes d) =
  if 31536000 <=? d then ["Year"; "Week"; "Day"; "Hour"; "Minute"]
  else if 604800 <=? d then ["Week"; "Day"; "Hour"; "Minute"]
  else if 86400 <=? d then ["Day"; "Hour"; "Minute"]
  else if 60 <=? d then ["Minute"]
  else [].
Proof.
  intros Hd. unfold bucketTimes. run_loop d Hd.
  repeat match goal with
         | |- context [?a <=? d] =>
             let L := fresh "L" in
             destruct (a <=? d) eqn:L;
             [ apply Z.leb_le in L | apply Z.leb_gt in L ]
         end;
    split_cases; cbn [orb List.length Nat.ltb Nat.leb app fst map name];
    first [ reflexivity | exfalso; lia ].
Qed.

(** X2.  On a duration [d >= 0] the buckets start at Year from one year
    (of 365 days) on, at Week from one week on, at Day from one day on, at
    Minute from one minute on, and there is none below a minute: no list
    of buckets starts at Hour. *)
Theorem bucketTimes_leading_unit (d : Z) :
  0 <= d ->
  (31536000 <= d ->
     map name (bucketTimes d) = ["Year"; "Week"; "Day"; "Hour"; "Minute"])
  /\ (604800 <= d < 31536000 ->
        map name (bucketTimes d) = ["Week"; "Day"; "Hour"; "Minute"])
  /\ (86400 <= d < 604800 ->
        map name (bucketTimes d) = ["Day"; "Hour"; "Minute"])
  /\ (60 <= d < 86400 -> map name (bucketTimes d) = ["Minute"])
  /\ (d < 60 -> bucketTimes d = [])
  /\ hd_error (map name (bucketTimes d)) <> Some "Hour".
Proof.
  intros Hd. pose proof (bucketTimes_names d Hd) as Hn.
  destruct (31536000 <=? d) eqn:L1;
    [ apply Z.leb_le in L1 | apply Z.leb_gt in L1;
      destruct (604800 <=? d) eqn:L2;
      [ apply Z.leb_le in L2 | apply Z.leb_gt in L2;
        destruct (86400 <=? d) eqn:L3;
        [ apply Z.leb_le in L3 | apply Z.leb_gt in L3;
          destruct (60 <=? d) eqn:L4;
          [ apply Z.leb_le in L4 | apply Z.leb_gt in L4 ] ] ] ];
    rewrite Hn;
    (repeat split;
     try (intros H; first [ reflexivity | exfalso; lia ]);
     try (intros H; discriminate H)).
  intros _. destruct (bucketTimes d); [ reflexivity | discriminate Hn ].
Qed.

Lemma bucketTimes_leading_unit_witness :
  map name (bucketTimes 3661) = ["Minute"].
Proof.
  apply (proj1 (proj2 (proj2 (proj2 (bucketTimes_leading_unit 3661 ltac:(lia)))))).
  lia.
Defined.

(** X3.  A longer duration never starts at a smaller unit: for
    [0 <= d1 <= d2], [bucketTimes d2] has at least as many buckets as
    [bucketTimes d1]. *)
Theorem bucketTimes_monotone (d1 d2 : Z) :
  0 <= d1 -> d1 <= d2 ->
  (List.length (bucketTimes d1) <= List.length (bucketTimes d2))%nat.
Proof.
  intros H1 H12.
  rewrite <- (length_map name (bucketTimes d1)).
  rewrite <- (length_map name (bucketTimes d2)).
  rewrite (bucketTimes_names d1 H1), (bucketTimes_names d2 ltac:(lia)).
  repeat match goal with
         | |- context [?a <=? ?x] =>
             let L := fresh "L" in
             destruct (a <=? x) eqn:L;
             [ apply Z.leb_le in L | apply Z.leb_gt in L ]
         end; simpl; lia.
Qed.

Lemma bucketTimes_monotone_witness :
  (List.length (bucketTimes 3661) <= List.length (bucketTimes 90061))%nat.
Proof. apply (bucketTimes_monotone 3661 90061); lia. Defined.

(** X4.  A negative duration (an epoch ahead of the clock) is bucketed as
    the time that remains of a year of 365 days: [bucketTimes d] is
    [bucketTimes (d mod 31536000)], which holds no Year. *)
Theorem bucketTimes_negative (d : Z) :
  d < 0 ->
  bucketTimes d = bucketTimes (d mod 31536000)
  /\ ~ In "Year" (map name (bucketTimes d)).
Proof.
  intros Hd.
  pose proof (Z.mod_pos_bound d 31536000 eq_refl) as Hm.
  assert (Heq : bucketTimes d = bucketTimes (d mod 31536000)).
  { unfold bucketTimes. rewrite !bucketLoop_units. cbv zeta.
    assert (Hq : d / 31536000 < 0)
      by (apply Z.div_lt_upper_bound; lia).
    replace (d - d / 31536000 * 31536000) with (d mod 31536000)
      by (rewrite Z.mod_eq; lia).
    rewrite (Z.div_small (d mod 31536000) 31536000 Hm).
    replace (d mod 31536000 - 0 * 31536000) with (d mod 31536000) by lia.
    destruct (0 <? d / 31536000) eqn:E; [ apply Z.ltb_lt in E; lia | ].
    reflexivity. }
  split; [ exact Heq | ].
  rewrite Heq, (bucketTimes_names _ (proj1 Hm)).
  destruct (31536000 <=? d mod 31536000) eqn:L;
    [ apply Z.leb_le in L; lia | ].
  repeat match goal with
         | |- context [?a <=? ?x] => destruct (a <=? x)
         end; simpl; intuition discriminate.
Qed.

Lemma bucketTimes_negative_witness :
  bucketTimes (-1) = bucketTimes ((-1) mod 31536000)
  /\ ~ In "Year" (map name (bucketTimes (-1))).
Proof. apply (bucketTimes_negative (-1)). lia. Defined.

Example bucketTimes_minus_one :
  bucketTimes (-1) =
  [mkScale "Week" 52; mkScale "Day" 0; mkScale "Hour" 0; mkScale "Minute" 1439].
Proof. reflexivity. Qed.

End BucketizerBounds.

Section FormatStrategies.

Lemma length_append (s1 s2 : string) :
  String.length (s1 ++ s2) = (String.length s1 + String.length s2)%nat.
Proof. induction s1 as [|c s1 IH]; simpl; [ reflexivity | now rewrite IH ]. Qed.

(** A rendered bucket of a named unit is never the placeholder. *)
Lemma scaleToStr_not_dash (b : Scale) :
  name b <> "" -> scaleToStr b <> "-".
Proof.
  intros Hn Habs. apply (f_equal String.length) in Habs.
  unfold scaleToStr in Habs. rewrite !length_append in Habs.
  destruct (name b) as [|c nm]; [ congruence | ].
  simpl in Habs. lia.
Qed.

(** The single-scale strategies, as [formatTime] runs them. *)
Lemma formatTime_single_scale (now epoch : Z) :
  formatTime now epoch (Some 3)
  = Ok (scaleToStr (mkScale "Year" ((now - epoch) / 31536000)))
  /\ formatTime now epoch (Some 4)
     = Ok (scaleToStr (mkScale "Week" ((now - epoch) / 31536000)))
  /\ formatTime now epoch (Some 5)
     = Ok (scaleToStr (mkScale "Day" ((now - epoch) / 31536000)))
  /\ formatTime now epoch (Some 6)
     = Ok (scaleToStr (mkScale "Hour" ((now - epoch) / 31536000)))
  /\ formatTime now epoch (Some 7)
     = Ok (scaleToStr (mkScale "Minute" ((now - epoch) / 31536000))).
Proof. repeat split. Qed.

(** X5.  [formatTime] never throws: for every clock reading, epoch and
    format, missing or out of range included, it returns a string. *)
Theorem formatTime_total (now epoch : Z) (format : option Z) :
  exists s, formatTime now epoch format = Ok s.
Proof.
  assert (H1 : exists s, formatTime now epoch (Some 1) = Ok s).
  { rewrite formatTime_one_unit.
    destruct (bucketTimes (now - epoch)); eauto. }
  destruct (formatTime_single_scale now epoch) as (H3 & H4 & H5 & H6 & H7).
  destruct format as [z|]; [ | exact H1 ].
  destruct (Z.ltb_spec z 0) as [Hneg | Hpos].
  { unfold formatTime, arrayGet.
    destruct (0 <=? z) eqn:E; [ apply Z.leb_le in E; lia | exact H1 ]. }
  destruct (Z.ltb_spec z 8) as [Hlt | Hge].
  - assert (Hz : z = 0 \/ z = 1 \/ z = 2 \/ z = 3 \/ z = 4 \/ z = 5
                 \/ z = 6 \/ z = 7) by lia.
    destruct Hz as [-> | [-> | [-> | [-> | [-> | [-> | [-> | ->]]]]]]];
      eauto.
    + eexists. reflexivity.
    + rewrite formatTime_two_units.
      destruct (bucketTimes (now - epoch)) as [|b1 [|b2 bs]]; eauto.
  - unfold formatTime, arrayGet.
    destruct (0 <=? z); [ | exact H1 ].
    replace (nth_error formatters (Z.to_nat z)) with (@None (string * Formatter));
      [ exact H1 | ].
    symmetry. apply nth_error_None. simpl. lia.
Qed.

(** X6.  On a timer whose epoch is not ahead of the clock, the One Unit
    strategy renders the placeholder "-" exactly when less than a minute
    has elapsed. *)
Theorem one_unit_placeholder (now epoch : Z) :
  epoch <= now ->
  (formatTime now epoch (Some 1) = Ok "-" <-> now - epoch < 60).
Proof.
  intros Hle. rewrite formatTime_one_unit.
  pose proof (bucketTimes_names (now - epoch) ltac:(lia)) as Hn.
  destruct (bucketTimes (now - epoch)) as [|b bs] eqn:Eb.
  - split; [ intros _ | reflexivity ].
    repeat match type of Hn with
           | context [?a <=? ?x] =>
               let L := fresh "L" in
               destruct (a <=? x) eqn:L; try discriminate Hn
           end.
    apply Z.leb_gt in L2. exact L2.
  - assert (Hname : name b <> "" /\ 60 <= now - epoch).
    { repeat match type of Hn with
             | context [?a <=? ?x] =>
                 let L := fresh "L" in
                 destruct (a <=? x) eqn:L;
                 [ apply Z.leb_le in L | apply Z.leb_gt in L ]
             end;
        try discriminate Hn;
        injection Hn as Hb _; rewrite Hb; split; try discriminate; lia. }
    destruct Hname as [Hname Hbig]. split.
    + intros [= Habs]. exfalso. exact (scaleToStr_not_dash b Hname Habs).
    + intros Hsmall. lia.
Qed.

Lemma one_unit_placeholder_witness :
  formatTime 1700000059 1700000000 (Some 1) = Ok "-"
  <-> 1700000059 - 1700000000 < 60.
Proof. apply (one_unit_placeholder 1700000059 1700000000). lia. Defined.

(** X7.  Each single-scale strategy divides the elapsed seconds by the
    scale of the Year: on a timer reset less than 365 days ago, Years,
    Weeks, Days, Hours and Minutes all render a count of 0. *)
Theorem single_scale_zero_within_a_year (now epoch : Z) :
  0 <= now - epoch < 31536000 ->
  Forall (fun '(i, nm) => formatTime now epoch (Some i) = Ok ("0 " ++ nm ++ "s"))
    [(3, "Year"); (4, "Week"); (5, "Day"); (6, "Hour"); (7, "Minute")].
Proof.
  intros Hd.
  destruct (formatTime_single_scale now epoch) as (H3 & H4 & H5 & H6 & H7).
  rewrite (Z.div_small _ _ Hd) in H3, H4, H5, H6, H7.
  repeat constructor; assumption.
Qed.

Lemma single_scale_zero_within_a_year_witness :
  Forall (fun '(i, nm) =>
            formatTime 1702592000 1700000000 (Some i) = Ok ("0 " ++ nm ++ "s"))
    [(3, "Year"); (4, "Week"); (5, "Day"); (6, "Hour"); (7, "Minute")].
Proof.
  apply (single_scale_zero_within_a_year 1702592000 1700000000). lia.
Defined.

End FormatStrategies.

(** * Further properties of the store *)

(** ** Sorting and objects *)

Section SortingFacts.

Context {A : Type}.
Variable key : A -> Z.

Lemma Permutation_insertBy (x : A) (l : list A) :
  Permutation (insertBy key x l) (x :: l).
Proof.
  induction l as [|y l IH]; simpl.
  - apply Permutation_refl.
  - destruct (key x <=? key y).
    + apply Permutation_refl.
    + apply perm_trans with (y :: x :: l).
      * apply perm_skip. exact IH.
      * apply perm_swap.
Qed.

Lemma Permutation_sortBy (l : list A) : Permutation (sortBy key l) l.
Proof.
  induction l as [|y l IH]; simpl.
  - apply Permutation_refl.
  - apply perm_trans with (y :: sortBy key l).
    + apply Permutation_insertBy.
    + apply perm_skip. exact IH.
Qed.

Lemma insertBy_sorted (x : A) (l : list A) :
  StronglySorted (fun a b => key a <= key b) l ->
  StronglySorted (fun a b => key a <= key b) (insertBy key x l).
Proof.
  induction l as [|y l IH]; simpl; intros Hs.
  - constructor; constructor.
  - inversion Hs as [|? ? Hs' Hall]; subst.
    destruct (key x <=? key y) eqn:E.
    + apply Z.leb_le in E. constructor; [ exact Hs | ].
      constructor; [ exact E | ].
      apply Forall_forall. intros z Hz.
      rewrite Forall_forall in Hall. specialize (Hall z Hz). lia.
    + apply Z.leb_gt in E. constructor; [ apply IH; exact Hs' | ].
      apply Forall_forall. intros z Hz. apply In_insertBy in Hz.
      destruct Hz as [-> | Hz]; [ lia | ].
      rewrite Forall_forall in Hall. exact (Hall z Hz).
Qed.

Lemma sortBy_sorted (l : list A) :
  StronglySorted (fun a b => key a <= key b) (sortBy key l).
Proof.
  induction l as [|y l IH]; simpl.
  - constructor.
  - apply insertBy_sorted. exact IH.
Qed.

(** The sort is stable: elements of one key come out in the order they
    went in. *)
Lemma insertBy_filter (k : Z) (x : A) (l : list A) :
  StronglySorted (fun a b => key a <= key b) l ->
  filter (fun a => key a =? k) (insertBy key x l)
  = filter (fun a => key a =? k) (x :: l).
Proof.
  induction l as [|y l IH]; intros Hs; [ reflexivity | ].
  inversion Hs as [|? ? Hs' Hall]; subst.
  cbn [insertBy]. destruct (key x <=? key y) eqn:E; [ reflexivity | ].
  apply Z.leb_gt in E. cbn [filter]. rewrite (IH Hs'). cbn [filter].
  destruct (Z.eqb_spec (key y) k) as [Hy | Hy];
    destruct (Z.eqb_spec (key x) k) as [Hx | Hx]; try reflexivity.
  lia.
Qed.

Lemma sortBy_stable (k : Z) (l : list A) :
  filter (fun a => key a =? k) (sortBy key l)
  = filter (fun a => key a =? k) l.
Proof.
  induction l as [|y l IH]; [ reflexivity | ].
  cbn [sortBy fold_right]. fold (sortBy key l).
  rewrite insertBy_filter.
  - cbn [filter]. now rewrite IH.
  - apply sortBy_sorted.
Qed.

End SortingFacts.

Section ObjectFacts.

Context {V : Type}.

Lemma Permutation_partition (f : Z * V -> bool) (l : list (Z * V)) :
  Permutation (filter f l ++ filter (fun x => negb (f x)) l) l.
Proof.
  induction l as [|x l IH]; simpl.
  - apply Permutation_refl.
  - destruct (f x); simpl.
    + apply perm_skip. exact IH.
    + apply Permutation_sym. apply Permutation_cons_app.
      apply Permutation_sym. exact IH.
Qed.

Lemma Permutation_objectValues (o : JsObject V) :
  Permutation (objectValues o) (map snd o).
Proof.
  unfold objectValues. rewrite <- map_app. apply Permutation_map.
  apply perm_trans
    with (filter (fun kv => isArrayIndex (fst kv)) o
          ++ filter (fun kv => negb (isArrayIndex (fst kv))) o)%list.
  - apply Permutation_app_tail. apply Permutation_sortBy.
  - apply Permutation_partition.
Qed.

Lemma objGet_objSet_same (o : JsObject V) (k : Z) (v : V) :
  objGet (objSet o k v) k = Some v.
Proof.
  unfold objGet. induction o as [|[k0 v0] o IH]; simpl.
  - now rewrite Z.eqb_refl.
  - destruct (k0 =? k) eqn:E; simpl.
    + now rewrite Z.eqb_refl.
    + rewrite E. exact IH.
Qed.

Lemma objGet_objSet_other (o : JsObject V) (k k' : Z) (v : V) :
  k' <> k -> objGet (objSet o k v) k' = objGet o k'.
Proof.
  intros Hk. unfold objGet. induction o as [|[k0 v0] o IH]; simpl.
  - destruct (k =? k') eqn:E; [ apply Z.eqb_eq in E; congruence | reflexivity ].
  - destruct (k0 =? k) eqn:E; simpl.
    + apply Z.eqb_eq in E. subst k0.
      destruct (k =? k') eqn:E'; [ apply Z.eqb_eq in E'; congruence | reflexivity ].
    + destruct (k0 =? k'); [ reflexivity | exact IH ].
Qed.

Lemma objGet_None_keys (o : JsObject V) (k : Z) :
  objGet o k = None -> ~ In k (map fst o).
Proof.
  unfold objGet. intros H Hin. apply in_map_iff in Hin.
  destruct Hin as ([k0 v0] & Hk & Hin). simpl in Hk. subst k0.
  destruct (find (fun kv => fst kv =? k) o) eqn:F; [ discriminate H | ].
  pose proof (find_none _ _ F (k, v0) Hin) as Hf. simpl in Hf.
  rewrite Z.eqb_refl in Hf. discriminate Hf.
Qed.

(** Setting a property keeps the keys in place, with a new key last. *)
Lemma objSet_keys (o : JsObject V) (k : Z) (v : V) :
  map fst (objSet o k v)
  = if existsb (fun kv => fst kv =? k) o then map fst o
    else (map fst o ++ [k])%list.
Proof.
  induction o as [|[k0 v0] o IH]; simpl.
  - reflexivity.
  - destruct (k0 =? k) eqn:E; simpl.
    + apply Z.eqb_eq in E. now subst.
    + rewrite IH. destruct (existsb _ o); reflexivity.
Qed.

Lemma objSet_keys_NoDup (o : JsObject V) (k : Z) (v : V) :
  NoDup (map fst o) -> NoDup (map fst (objSet o k v)).
Proof.
  intros Hnd. rewrite objSet_keys.
  destruct (existsb (fun kv => fst kv =? k) o) eqn:E; [ exact Hnd | ].
  apply Permutation_NoDup with (l := k :: map fst o).
  - apply Permutation_cons_append.
  - constructor; [ | exact Hnd ].
    intros Hin. apply in_map_iff in Hin. destruct Hin as ([k0 v0] & Hk & Hin).
    simpl in Hk. subst k0.
    assert (Ht : existsb (fun kv => fst kv =? k) o = true).
    { apply existsb_exists. exists (k, v0). split; [ exact Hin | ].
      simpl. apply Z.eqb_refl. }
    congruence.
Qed.

End ObjectFacts.

(** ** Groups returned by [getGroups] *)

Section GroupsReturned.

Lemma getGroups_eq (userId : Z) (w : World) :
  getGroups userId w = (Ok (groupsOf userId (db w)), w).
Proof. reflexivity. Qed.

Lemma getGroupsRows_complete (userId : Z) (d : DB) (g : GroupRow)
    (tg : TimerGroup) (t : Timer) :
  In g (Groups d) -> In tg (TimerGroups d) -> In t (Timers d) ->
  g_userid g = userId -> tg_groupid tg = g_id g ->
  tg_timerid tg = timer_id t ->
  In (g, t) (getGroupsRows userId d).
Proof.
  intros Hg Htg Ht Hu Hgid Htid. unfold getGroupsRows.
  apply in_flat_map. exists g. split; [ exact Hg | ].
  apply in_flat_map. exists tg. split; [ exact Htg | ].
  apply in_flat_map. exists t. split; [ exact Ht | ].
  rewrite Hgid, Htid, Hu, !Z.eqb_refl. left. reflexivity.
Qed.

Lemma getGroupsStep_sound (rows : list (GroupRow * Timer))
    (o : JsObject Group) (row : GroupRow * Timer) :
  groupsSound rows o -> In row rows -> groupsSound rows (getGroupsStep o row).
Proof.
  intros Hinv Hrow k grp Hin. destruct row as [g t].
  unfold getGroupsStep in Hin. apply In_objSet in Hin.
  destruct Hin as [[-> ->] | Hin]; [ | exact (Hinv k grp Hin) ].
  cbn [group_id group_title group_slug group_createdAt group_timers].
  destruct (objGet o (g_id g)) as [old|] eqn:E.
  - apply objGet_In in E. destruct (Hinv _ _ E) as [Hcols Htimers].
    split; [ exact Hcols | ].
    intros t' Ht'. apply in_app_or in Ht'.
    destruct Ht' as [Ht' | [<- | []]]; [ exact (Htimers t' Ht') | ].
    exists g. tauto.
  - cbn [group_id group_title group_slug group_createdAt group_timers].
    split.
    + exists g, t. tauto.
    + intros t' [<- | []]. exists g. tauto.
Qed.

Lemma fold_getGroupsStep_sound (rows todo : list (GroupRow * Timer))
    (o : JsObject Group) :
  groupsSound rows o -> incl todo rows ->
  groupsSound rows (fold_left getGroupsStep todo o).
Proof.
  revert o. induction todo as [|row todo IH]; intros o Hinv Hincl; simpl.
  - exact Hinv.
  - apply IH.
    + apply getGroupsStep_sound; [ exact Hinv | apply Hincl; left; reflexivity ].
    + intros x Hx. apply Hincl. right. exact Hx.
Qed.

(** A group returned stands for a group row of the user, and each of its
    timers is a timer row that a membership row links to the group. *)
Lemma groupsOf_sound (userId : Z) (d : DB) (g : Group) :
  In g (groupsOf userId d) ->
  (exists grow, In grow (Groups d) /\ g_userid grow = userId
     /\ group_id g = g_id grow /\ group_title g = g_title grow
     /\ group_slug g = g_slug grow /\ group_createdAt g = g_createdAt grow)
  /\ (forall t, In t (group_timers g) ->
        In t (Timers d)
        /\ exists tg, In tg (TimerGroups d)
             /\ tg_groupid tg = group_id g /\ tg_timerid tg = timer_id t).
Proof.
  unfold groupsOf. intros Hg. apply In_sortBy, In_objectValues in Hg.
  destruct Hg as [k Hg].
  assert (Hinv : groupsSound (getGroupsRows userId d)
                   (fold_left getGroupsStep (getGroupsRows userId d) [])).
  { apply fold_getGroupsStep_sound; [ intros ? ? [] | apply incl_refl ]. }
  destruct (Hinv k g Hg) as [(grow & t0 & Hrow & Hk & Hid & Hti & Hsl & Hcr) Htimers].
  split.
  - apply In_getGroupsRows in Hrow. destruct Hrow as (Hin & _ & Hu & _).
    exists grow. tauto.
  - intros t Ht. destruct (Htimers t Ht) as (g' & Hrow' & Hk').
    apply In_getGroupsRows in Hrow'.
    destruct Hrow' as (_ & Htin & _ & tg & Htg & Hgid & Htid).
    split; [ exact Htin | ]. exists tg. split; [ exact Htg | ].
    split; [ congruence | exact Htid ].
Qed.

Lemma getGroupsStep_complete (done : list (GroupRow * Timer))
    (o : JsObject Group) (row : GroupRow * Timer) :
  groupsComplete done o -> groupsComplete (row :: done) (getGroupsStep o row).
Proof.
  intros Hinv g t Hin. destruct row as [g1 t1]. unfold getGroupsStep.
  destruct (Z.eq_dec (g_id g) (g_id g1)) as [Heq | Hne].
  - rewrite Heq, objGet_objSet_same. eexists. split; [ reflexivity | ].
    cbn [group_timers]. apply in_or_app.
    destruct Hin as [[= <- <-] | Hin]; [ right; left; reflexivity | ].
    destruct (Hinv g t Hin) as (grp & Hget & Ht).
    rewrite Heq in Hget. rewrite Hget. left. exact Ht.
  - rewrite objGet_objSet_other by exact Hne.
    destruct Hin as [[= <- <-] | Hin]; [ congruence | ].
    exact (Hinv g t Hin).
Qed.

Lemma fold_getGroupsStep_complete (todo done : list (GroupRow * Timer))
    (o : JsObject Group) :
  groupsComplete done o ->
  groupsComplete (rev todo ++ done) (fold_left getGroupsStep todo o).
Proof.
  revert done o. induction todo as [|row todo IH]; intros done o Hinv; simpl.
  - exact Hinv.
  - rewrite <- app_assoc. simpl. apply IH.
    apply getGroupsStep_complete. exact Hinv.
Qed.

(** A timer linked to a group of the user is on that group in the
    result. *)
Lemma groupsOf_complete (userId : Z) (d : DB) (grow : GroupRow) (t : Timer) :
  In (grow, t) (getGroupsRows userId d) ->
  exists g, In g (groupsOf userId d)
            /\ group_id g = g_id grow /\ In t (group_timers g).
Proof.
  intros Hrow.
  pose proof (fold_getGroupsStep_complete (getGroupsRows userId d) [] []
                ltac:(intros ? ? [])) as Hc.
  rewrite app_nil_r in Hc.
  destruct (Hc grow t ltac:(apply in_rev; rewrite rev_involutive; exact Hrow))
    as (g & Hget & Ht).
  apply objGet_In in Hget.
  exists g. split; [ | split; [ | exact Ht ] ].
  - unfold groupsOf. apply In_sortBy, In_objectValues. eauto.
  - pose proof (fold_getGroupsStep_inv (getGroupsRows userId d)
                  (getGroupsRows userId d) []
                  ltac:(intros ? ? []) (incl_refl _)) as Hinv.
    apply (Hinv _ _ Hget).
Qed.

(** X8.  Every group [getGroups userId] returns carries the id, title,
    slug and creation time of a row of [Groups] owned by [userId], and
    each timer on it is a row of [Timers] that a membership row links to
    that group. *)
Theorem getGroups_sound (userId : Z) (w : World) :
  exists groups,
    getGroups userId w = (Ok groups, w)
    /\ forall g, In g groups ->
         (exists grow, In grow (Groups (db w)) /\ g_userid grow = userId
            /\ group_id g = g_id grow /\ group_title g = g_title grow
            /\ group_slug g = g_slug grow
            /\ group_createdAt g = g_createdAt grow)
         /\ (forall t, In t (group_timers g) ->
               In t (Timers (db w))
               /\ exists tg, In tg (TimerGroups (db w))
                    /\ tg_groupid tg = group_id g
                    /\ tg_timerid tg = timer_id t).
Proof.
  exists (groupsOf userId (db w)). split; [ apply getGroups_eq | ].
  intros g Hg. exact (groupsOf_sound userId (db w) g Hg).
Qed.

(** X9.  A timer that a membership row links to a group of [userId] is
    listed by [getGroups userId] on the group of that id. *)
Theorem getGroups_complete (userId : Z) (w : World) (grow : GroupRow)
    (tg : TimerGroup) (t : Timer) :
  In grow (Groups (db w)) -> g_userid grow = userId ->
  In tg (TimerGroups (db w)) -> tg_groupid tg = g_id grow ->
  In t (Timers (db w)) -> tg_timerid tg = timer_id t ->
  exists groups g,
    getGroups userId w = (Ok groups, w)
    /\ In g groups /\ group_id g = g_id grow /\ In t (group_timers g).
Proof.
  intros Hg Hu Htg Hgid Ht Htid.
  destruct (groupsOf_complete userId (db w) grow t) as (g & Hin & Hid & Hmem).
  { apply (getGroupsRows_complete userId (db w) grow tg t); assumption. }
  exists (groupsOf userId (db w)), g.
  split; [ apply getGroups_eq | tauto ].
Qed.

Lemma getGroups_complete_witness :
  exists groups g,
    getGroups 2 sampleWorld = (Ok groups, sampleWorld)
    /\ In g groups /\ group_id g = g_id sampleGroup1
    /\ In sampleTimer1 (group_timers g).
Proof.
  apply (getGroups_complete 2 sampleWorld sampleGroup1
           {| tg_id := 2; tg_groupid := 1; tg_timerid := 1; tg_userid := 2;
              tg_createdAt := 1700000500 |} sampleTimer1);
    try reflexivity; simpl; tauto.
Defined.

Lemma fold_getGroupsStep_keys (todo : list (GroupRow * Timer))
    (o : JsObject Group) :
  NoDup (map fst o) -> NoDup (map fst (fold_left getGroupsStep todo o)).
Proof.
  revert o. induction todo as [|[g t] todo IH]; intros o Hnd; simpl.
  - exact Hnd.
  - apply IH. apply objSet_keys_NoDup. exact Hnd.
Qed.

Lemma keys_are_ids (rows : list (GroupRow * Timer)) (o : JsObject Group) :
  groupsInv rows o -> map group_id (map snd o) = map fst o.
Proof.
  induction o as [|[k grp] o IH]; intros Hinv; simpl.
  - reflexivity.
  - f_equal.
    + apply (Hinv k grp). left. reflexivity.
    + apply IH. intros k' grp' Hin. apply Hinv. right. exact Hin.
Qed.

(** X10.  [getGroups] returns its groups in ascending order of creation
    time, and no two of them have the same id. *)
Theorem getGroups_sorted_distinct (userId : Z) (w : World) :
  exists groups,
    getGroups userId w = (Ok groups, w)
    /\ StronglySorted
         (fun a b => group_createdAt a <= group_createdAt b) groups
    /\ NoDup (map group_id groups).
Proof.
  exists (groupsOf userId (db w)). split; [ apply getGroups_eq | ].
  split; [ apply sortBy_sorted | ].
  unfold groupsOf.
  set (rows := getGroupsRows userId (db w)).
  set (o := fold_left getGroupsStep rows []).
  apply Permutation_NoDup with (l := map fst o).
  - rewrite <- (keys_are_ids rows o).
    + apply Permutation_map. apply Permutation_sym.
      apply perm_trans with (objectValues o).
      * apply Permutation_sortBy.
      * apply Permutation_objectValues.
    + apply fold_getGroupsStep_inv; [ intros ? ? [] | apply incl_refl ].
  - apply fold_getGroupsStep_keys. constructor.
Qed.

End GroupsReturned.

(** ** Resetting and deleting *)

Section ResetAndDelete.

Lemma map_keeps_all {A : Type} (f : A -> A) (l : list A) :
  (forall x, In x l -> f x = x) -> map f l = l.
Proof.
  induction l as [|x l IH]; simpl; intros H; [ reflexivity | ].
  rewrite (H x (or_introl eq_refl)), IH; [ reflexivity | ].
  intros y Hy. apply H. right. exact Hy.
Qed.

Lemma withDB_same (w : World) (d : DB) : d = db w -> withDB w d = w.
Proof. intros ->. destruct w. reflexivity. Qed.

Lemma db_eta (d : DB) :
  {| foreign_keys := foreign_keys d; Slugs := Slugs d; Users := Users d;
     seqUsers := seqUsers d; Timers := Timers d; Groups := Groups d;
     TimerGroups := TimerGroups d |} = d.
Proof. destruct d. reflexivity. Qed.

(** X11.  [resetTimer] with a slug and a secret that no timer carries
    together returns without an error and leaves the world as it was. *)
Theorem resetTimer_no_match (slug secret : string) (w : World) :
  (forall t, In t (Timers (db w)) ->
     timer_slug t = slug -> timer_secret t <> secret) ->
  resetTimer slug secret w = (Ok tt, w).
Proof.
  intros Hmiss. unfold resetTimer, bind, getDB, unixepoch, putDB.
  rewrite map_keeps_all.
  - rewrite db_eta. destruct w. reflexivity.
  - intros t Ht.
    destruct (String.eqb_spec (timer_slug t) slug) as [Hs | Hs];
      [ | reflexivity ].
    destruct (String.eqb_spec (timer_secret t) secret) as [Hc | Hc];
      [ | reflexivity ].
    exfalso. exact (Hmiss t Ht Hs Hc).
Qed.

Lemma resetTimer_no_match_witness :
  resetTimer "Tmr222" "secret-b" sampleWorld = (Ok tt, sampleWorld).
Proof.
  apply (resetTimer_no_match "Tmr222" "secret-b" sampleWorld).
  intros t Ht Hs. simpl in Ht.
  destruct Ht as [<- | [<- | []]]; simpl in *; discriminate.
Defined.

(** [resetTimer], [deleteGroup] and [removeTimer], written out. *)
Lemma resetTimer_eq (slug secret : string) (w : World) :
  resetTimer slug secret w =
  (Ok tt,
   withDB w
     {| foreign_keys := foreign_keys (db w); Slugs := Slugs (db w);
        Users := Users (db w); seqUsers := seqUsers (db w);
        Timers :=
          map (fun t =>
                 if String.eqb (timer_slug t) slug
                    && String.eqb (timer_secret t) secret
                 then {| timer_id := timer_id t; timer_epoch := clock w;
                         timer_title := timer_title t;
                         timer_slug := timer_slug t;
                         timer_secret := timer_secret t;
                         timer_userid := timer_userid t;
                         timer_format := timer_format t;
                         timer_createdAt := timer_createdAt t |}
                 else t)
              (Timers (db w));
        Groups := Groups (db w); TimerGroups := TimerGroups (db w) |}).
Proof. reflexivity. Qed.

Lemma deleteGroup_eq (slug : string) (w : World) :
  deleteGroup slug w =
  (Ok tt,
   withDB w
     {| foreign_keys := foreign_keys (db w); Slugs := Slugs (db w);
        Users := Users (db w); seqUsers := seqUsers (db w);
        Timers := Timers (db w);
        Groups := filter (fun g => negb (String.eqb (g_slug g) slug))
                    (Groups (db w));
        TimerGroups :=
          cascadeGroups (db w)
            (filter (fun g => String.eqb (g_slug g) slug) (Groups (db w))) |}).
Proof. reflexivity. Qed.

Lemma removeTimer_eq (userId groupId timerId : Z) (w : World) :
  removeTimer userId groupId timerId w =
  (Ok tt,
   withDB w
     {| foreign_keys := foreign_keys (db w); Slugs := Slugs (db w);
        Users := Users (db w); seqUsers := seqUsers (db w);
        Timers := Timers (db w); Groups := Groups (db w);
        TimerGroups :=
          filter (fun tg => negb ((tg_userid tg =? userId)
                                  && (tg_groupid tg =? groupId)
                                  && (tg_timerid tg =? timerId)))
            (TimerGroups (db w)) |}).
Proof. reflexivity. Qed.

(** X12.  [resetTimer] returns without an error; afterwards every timer
    of that slug and secret has the clock reading as its epoch and
    renders, at that reading, as "-" under One Unit; the ids of the timers
    are as before, a timer of another slug or secret keeps its row, and
    no other table changes. *)
Theorem resetTimer_effect (slug secret : string) (w : World) :
  exists w',
    resetTimer slug secret w = (Ok tt, w')
    /\ clock w' = clock w
    /\ map timer_id (Timers (db w')) = map timer_id (Timers (db w))
    /\ (forall t, In t (Timers (db w')) ->
          timer_slug t = slug -> timer_secret t = secret ->
          timer_epoch t = clock w
          /\ formatTime (clock w) (timer_epoch t) (Some 1) = Ok "-")
    /\ (forall t, In t (Timers (db w)) ->
          timer_slug t <> slug \/ timer_secret t <> secret ->
          In t (Timers (db w')))
    /\ Users (db w') = Users (db w) /\ Groups (db w') = Groups (db w)
    /\ TimerGroups (db w') = TimerGroups (db w)
    /\ Slugs (db w') = Slugs (db w).
Proof.
  eexists. split; [ apply resetTimer_eq | ].
  cbn [withDB db clock Timers Users Groups TimerGroups Slugs].
  split; [ reflexivity | ]. split.
  { rewrite map_map. apply map_ext. intros t.
    destruct (_ && _); reflexivity. }
  split.
  { intros t Ht Hs Hc. apply in_map_iff in Ht.
    destruct Ht as (t0 & Heq & _).
    assert (He : timer_epoch t = clock w).
    { destruct (String.eqb (timer_slug t0) slug
                && String.eqb (timer_secret t0) secret) eqn:E.
      - subst t. reflexivity.
      - subst t0. rewrite Hs, Hc, !String.eqb_refl in E. discriminate E. }
    split; [ exact He | ].
    rewrite He, formatTime_one_unit, Z.sub_diag. reflexivity. }
  split; [ | repeat split ].
  intros t Ht Hne. apply in_map_iff. exists t. split; [ | exact Ht ].
  destruct Hne as [Hne | Hne].
  - apply String.eqb_neq in Hne. rewrite Hne. reflexivity.
  - apply String.eqb_neq in Hne. rewrite Hne, andb_false_r. reflexivity.
Qed.

(** [deleteTimer], written out. *)
Lemma deleteTimer_eq (userId : Z) (slug : string) (w : World) :
  deleteTimer userId slug w =
  (Ok tt,
   withDB w
     {| foreign_keys := foreign_keys (db w); Slugs := Slugs (db w);
        Users := Users (db w); seqUsers := seqUsers (db w);
        Timers := filter (fun t => negb ((timer_userid t =? userId)
                                         && String.eqb (timer_slug t) slug))
                    (Timers (db w));
        Groups := Groups (db w);
        TimerGroups :=
          cascadeTimers (db w)
            (filter (fun t => (timer_userid t =? userId)
                              && String.eqb (timer_slug t) slug)
               (Timers (db w))) |}).
Proof. reflexivity. Qed.

Lemma filter_filter_neg {A : Type} (f : A -> bool) (l : list A) :
  filter f (filter (fun x => negb (f x)) l) = [].
Proof.
  apply filter_keeps_none. intros x Hx. apply filter_In in Hx.
  destruct Hx as [_ Hx]. destruct (f x); [ discriminate Hx | reflexivity ].
Qed.

Lemma filter_comm {A : Type} (f g : A -> bool) (l : list A) :
  filter f (filter g l) = filter g (filter f l).
Proof.
  induction l as [|x l IH]; simpl; [ reflexivity | ].
  destruct (f x) eqn:Ef, (g x) eqn:Eg; simpl; rewrite ?Ef, ?Eg, IH; reflexivity.
Qed.

Lemma filter_idem {A : Type} (f : A -> bool) (l : list A) :
  filter f (filter f l) = filter f l.
Proof.
  apply filter_keeps_all. intros x Hx. apply filter_In in Hx. tauto.
Qed.

(** X13.  After [deleteTimer userId slug] no timer of that owner and slug
    is left, every other timer is still there, and the same call once
    more changes nothing. *)
Theorem deleteTimer_idempotent (userId : Z) (slug : string) (w : World) :
  exists w',
    deleteTimer userId slug w = (Ok tt, w')
    /\ (forall t, In t (Timers (db w')) <->
          In t (Timers (db w))
          /\ ~ (timer_userid t = userId /\ timer_slug t = slug))
    /\ deleteTimer userId slug w' = (Ok tt, w').
Proof.
  eexists. split; [ apply deleteTimer_eq | ]. split.
  - intros t. cbn [withDB db Timers]. rewrite filter_In.
    destruct (Z.eqb_spec (timer_userid t) userId) as [Hu | Hu];
      destruct (String.eqb_spec (timer_slug t) slug) as [Hs | Hs];
      simpl; intuition congruence.
  - rewrite deleteTimer_eq. cbn [withDB db Timers foreign_keys Slugs Users
                                 seqUsers Groups TimerGroups clock random drawn].
    rewrite filter_filter_neg, filter_idem.
    f_equal. unfold withDB. cbn [db clock random drawn]. f_equal.
    f_equal. unfold cascadeTimers at 1. cbn [foreign_keys TimerGroups].
    destruct (foreign_keys (db w)); [ | reflexivity ].
    apply filter_keeps_all. reflexivity.
Qed.

(** X14.  [deleteTimer userId slug] leaves the timers of every other user,
    as [getTimers] lists them, as they were, and takes from the list of
    [userId] exactly the timers of that slug. *)
Theorem deleteTimer_getTimers (userId : Z) (slug : string) (w : World) :
  exists w',
    deleteTimer userId slug w = (Ok tt, w')
    /\ (forall other, other <> userId ->
          fst (getTimers other w') = fst (getTimers other w))
    /\ fst (getTimers userId w')
       = Ok (filter (fun t => negb (String.eqb (timer_slug t) slug))
               (timersOfUser userId (db w))).
Proof.
  eexists. split; [ apply deleteTimer_eq | ].
  unfold getTimers, dbAll, timersOfUser. cbn [fst withDB db Timers]. split.
  - intros other Hne. f_equal. rewrite filter_comm.
    apply filter_keeps_all. intros t Ht. apply filter_In in Ht.
    destruct Ht as [_ Ho]. apply Z.eqb_eq in Ho.
    destruct (Z.eqb_spec (timer_userid t) userId); [ congruence | reflexivity ].
  - f_equal. rewrite filter_comm. apply filter_ext_in.
    intros t Ht. apply filter_In in Ht. destruct Ht as [_ Hu].
    rewrite Hu. reflexivity.
Qed.

(** X15.  [deleteGroup slug] returns without an error, leaves no group of
    that slug, keeps every other group and never touches the timers, the
    users or the registry.  The membership rows of the groups it deleted
    go with them when foreign keys are on, and all stay when they are
    off. *)
Theorem deleteGroup_effect (slug : string) (w : World) :
  exists w',
    deleteGroup slug w = (Ok tt, w')
    /\ (forall g, In g (Groups (db w')) <->
          In g (Groups (db w)) /\ g_slug g <> slug)
    /\ Timers (db w') = Timers (db w) /\ Users (db w') = Users (db w)
    /\ Slugs (db w') = Slugs (db w)
    /\ (foreign_keys (db w) = false ->
          TimerGroups (db w') = TimerGroups (db w))
    /\ (foreign_keys (db w) = true ->
          forall tg, In tg (TimerGroups (db w')) <->
            In tg (TimerGroups (db w))
            /\ forall g, In g (Groups (db w)) -> g_slug g = slug ->
                 g_id g <> tg_groupid tg).
Proof.
  eexists. split; [ apply deleteGroup_eq | ].
  cbn [withDB db Groups Timers Users Slugs TimerGroups]. split.
  { intros g. rewrite filter_In.
    destruct (String.eqb_spec (g_slug g) slug); simpl; intuition congruence. }
  split; [ reflexivity | ]. split; [ reflexivity | ].
  split; [ reflexivity | ]. split.
  - intros Hfk. unfold cascadeGroups. now rewrite Hfk.
  - intros Hfk tg. unfold cascadeGroups. rewrite Hfk, filter_In. split.
    + intros [Hin Hn]. split; [ exact Hin | ]. intros g Hg Hs Hid.
      apply negb_true_iff in Hn.
      assert (Ht : existsb (fun g0 => g_id g0 =? tg_groupid tg)
                     (filter (fun g0 => String.eqb (g_slug g0) slug)
                        (Groups (db w))) = true).
      { apply existsb_exists. exists g. split.
        - apply filter_In. split; [ exact Hg | ]. rewrite Hs.
          apply String.eqb_refl.
        - apply Z.eqb_eq. exact Hid. }
      congruence.
    + intros [Hin Hnone]. split; [ exact Hin | ]. apply negb_true_iff.
      destruct (existsb _ _) eqn:E; [ | reflexivity ].
      apply existsb_exists in E. destruct E as (g & Hg & Hid).
      apply filter_In in Hg. destruct Hg as [Hg Hs].
      apply String.eqb_eq in Hs. apply Z.eqb_eq in Hid.
      exfalso. exact (Hnone g Hg Hs Hid).
Qed.

(** X16.  After [deleteGroup slug], [getGroups] returns no group of that
    slug to any user, with foreign keys on or off. *)
Theorem deleteGroup_getGroups (slug : string) (userId : Z) (w : World) :
  exists w' groups,
    deleteGroup slug w = (Ok tt, w')
    /\ getGroups userId w' = (Ok groups, w')
    /\ forall g, In g groups -> group_slug g <> slug.
Proof.
  eexists. eexists. split; [ apply deleteGroup_eq | ].
  split; [ apply getGroups_eq | ].
  intros g Hg. apply groupsOf_sound in Hg.
  destruct Hg as [(grow & Hin & _ & _ & _ & Hs & _) _].
  cbn [withDB db Groups] in Hin. apply filter_In in Hin. destruct Hin as [_ Hne].
  rewrite Hs. apply negb_true_iff, String.eqb_neq in Hne. exact Hne.
Qed.

(** X17.  After [deleteTimer userId slug], no group that [getGroups]
    returns to any user lists a timer of that owner and slug, with foreign
    keys on or off. *)
Theorem deleteTimer_getGroups (userId : Z) (slug : string) (viewer : Z)
    (w : World) :
  exists w' groups,
    deleteTimer userId slug w = (Ok tt, w')
    /\ getGroups viewer w' = (Ok groups, w')
    /\ forall g t, In g groups -> In t (group_timers g) ->
         ~ (timer_userid t = userId /\ timer_slug t = slug).
Proof.
  eexists. eexists. split; [ apply deleteTimer_eq | ].
  split; [ apply getGroups_eq | ].
  intros g t Hg Ht [Hu Hs]. apply groupsOf_sound in Hg.
  destruct Hg as [_ Htimers]. destruct (Htimers t Ht) as [Hin _].
  cbn [withDB db Timers] in Hin. apply filter_In in Hin.
  destruct Hin as [_ Hne].
  rewrite Hu, Hs, Z.eqb_refl, String.eqb_refl in Hne. discriminate Hne.
Qed.

(** X18.  [removeTimer userId groupId timerId] returns without an error,
    leaves no membership row of these three ids, keeps every other
    membership row and all the timers and groups, and the same call once
    more changes nothing. *)
Theorem removeTimer_effect (userId groupId timerId : Z) (w : World) :
  exists w',
    removeTimer userId groupId timerId w = (Ok tt, w')
    /\ (forall tg, In tg (TimerGroups (db w')) <->
          In tg (TimerGroups (db w))
          /\ ~ (tg_userid tg = userId /\ tg_groupid tg = groupId
                /\ tg_timerid tg = timerId))
    /\ Timers (db w') = Timers (db w) /\ Groups (db w') = Groups (db w)
    /\ removeTimer userId groupId timerId w' = (Ok tt, w').
Proof.
  eexists. split; [ apply removeTimer_eq | ].
  cbn [withDB db TimerGroups Timers Groups]. split.
  { intros tg. rewrite filter_In.
    destruct (Z.eqb_spec (tg_userid tg) userId);
      destruct (Z.eqb_spec (tg_groupid tg) groupId);
      destruct (Z.eqb_spec (tg_timerid tg) timerId);
      simpl; intuition congruence. }
  split; [ reflexivity | ]. split; [ reflexivity | ].
  rewrite removeTimer_eq.
  cbn [withDB db TimerGroups Timers Groups foreign_keys Slugs Users seqUsers
       clock random drawn].
  rewrite filter_idem. reflexivity.
Qed.

End ResetAndDelete.

(** ** Settings *)

Section SettingsTable.

Lemma find_upsert_same (l : list (string * SettingValue)) (key : string)
    (value : SettingValue) :
  option_map snd (find (fun kv => String.eqb (fst kv) key)
                    (upsertSetting l key value)) = Some value.
Proof.
  induction l as [|[k v] l IH]; simpl.
  - now rewrite String.eqb_refl.
  - destruct (String.eqb k key) eqn:E; simpl; rewrite E; [ reflexivity | exact IH ].
Qed.

Lemma find_upsert_other (l : list (string * SettingValue)) (key other : string)
    (value : SettingValue) :
  other <> key ->
  find (fun kv => String.eqb (fst kv) other) (upsertSetting l key value)
  = find (fun kv => String.eqb (fst kv) other) l.
Proof.
  intros Hne. induction l as [|[k v] l IH]; simpl.
  - destruct (String.eqb_spec key other); [ congruence | reflexivity ].
  - destruct (String.eqb_spec k key) as [-> | Hk]; simpl.
    + destruct (String.eqb_spec key other); [ congruence | reflexivity ].
    + destruct (String.eqb k other); [ reflexivity | exact IH ].
Qed.

Lemma upsert_keys (l : list (string * SettingValue)) (key : string)
    (value : SettingValue) :
  map fst (upsertSetting l key value)
  = if existsb (fun kv => String.eqb (fst kv) key) l then map fst l
    else (map fst l ++ [key])%list.
Proof.
  induction l as [|[k v] l IH]; simpl.
  - reflexivity.
  - destruct (String.eqb k key) eqn:E; simpl.
    + reflexivity.
    + rewrite IH. destruct (existsb _ l); reflexivity.
Qed.

Lemma find_app_miss {A : Type} (f : A -> bool) (l : list A) (y : A) :
  f y = false -> find f (l ++ [y]) = find f l.
Proof.
  intros Hy. induction l as [|x l IH]; simpl.
  - now rewrite Hy.
  - destruct (f x); [ reflexivity | exact IH ].
Qed.

Lemma NoDup_snoc (l : list string) (key : string) :
  NoDup l -> ~ In key l -> NoDup (l ++ [key]).
Proof.
  intros Hnd Hnew. apply Permutation_NoDup with (l := key :: l).
  - apply Permutation_cons_append.
  - constructor; assumption.
Qed.

Lemma existsb_key_false (l : list (string * SettingValue)) (key : string) :
  existsb (fun kv => String.eqb (fst kv) key) l = false ->
  ~ In key (map fst l).
Proof.
  intros E Hin. apply in_map_iff in Hin. destruct Hin as ([k v] & Hk & Hin).
  simpl in Hk. subst k.
  assert (Ht : existsb (fun kv => String.eqb (fst kv) key) l = true).
  { apply existsb_exists. exists (key, v). split; [ exact Hin | ].
    simpl. apply String.eqb_refl. }
  congruence.
Qed.

(** X19.  A setting reads back as it was written, a write to one key
    leaves what every other key reads, and neither touches the world. *)
Theorem setSetting_getSetting (key : string) (value : SettingValue) (s : Store) :
  exists s',
    setSetting key value s = (Ok tt, s')
    /\ getSetting key s' = (Ok (Some value), s')
    /\ (forall other, other <> key ->
          fst (getSetting other s') = fst (getSetting other s))
    /\ world s' = world s.
Proof.
  eexists. split; [ reflexivity | ].
  unfold getSetting. cbn [withSettings Settings world fst]. split.
  - now rewrite find_upsert_same.
  - split; [ | reflexivity ].
    intros other Hne. now rewrite find_upsert_other.
Qed.

(** X20.  On a [Settings] table with one row per key, [setSetting] and
    [init] keep one row per key; [setSetting] adds a row only for a key
    that had none. *)
Theorem settings_keys_unique (key : string) (value : SettingValue) (s : Store) :
  NoDup (map fst (Settings s)) ->
  NoDup (map fst (Settings (snd (setSetting key value s))))
  /\ NoDup (map fst (Settings (snd (init s))))
  /\ (In key (map fst (Settings s)) ->
        map fst (Settings (snd (setSetting key value s)))
        = map fst (Settings s)).
Proof.
  intros Hnd. cbn [setSetting init snd withSettings Settings].
  rewrite upsert_keys. split; [ | split ].
  - destruct (existsb _ (Settings s)) eqn:E; [ exact Hnd | ].
    apply NoDup_snoc; [ exact Hnd | apply existsb_key_false; exact E ].
  - destruct (existsb _ (Settings s)) eqn:E; [ exact Hnd | ].
    cbn [withSettings Settings]. rewrite map_app. simpl.
    apply NoDup_snoc; [ exact Hnd | apply existsb_key_false; exact E ].
  - intros Hin. destruct (existsb _ (Settings s)) eqn:E; [ reflexivity | ].
    exfalso. exact (existsb_key_false _ _ E Hin).
Qed.

Lemma settings_keys_unique_witness :
  NoDup (map fst (Settings (snd (setSetting "other" (NumberValue 0) sampleStore))))
  /\ NoDup (map fst (Settings (snd (init sampleStore))))
  /\ (In "other" (map fst (Settings sampleStore)) ->
        map fst (Settings (snd (setSetting "other" (NumberValue 0) sampleStore)))
        = map fst (Settings sampleStore)).
Proof.
  apply (settings_keys_unique "other" (NumberValue 0) sampleStore).
  simpl. repeat constructor. simpl. tauto.
Defined.

(** X21.  [init] never overwrites the version: a version that is set
    reads the same after [init], a missing one reads 1; every other key
    reads as before, and [init] a second time changes nothing. *)
Theorem init_keeps_version (s : Store) :
  exists s',
    init s = (Ok tt, s')
    /\ fst (getSetting "version" s')
       = match fst (getSetting "version" s) with
         | Ok (Some v) => Ok (Some v)
         | _ => Ok (Some (NumberValue 1))
         end
    /\ (forall other, other <> "version" ->
          fst (getSetting other s') = fst (getSetting other s))
    /\ init s' = (Ok tt, s')
    /\ world s' = world s.
Proof.
  eexists. split; [ reflexivity | ]. unfold init, getSetting. cbn [fst].
  destruct (existsb (fun kv => String.eqb (fst kv) "version") (Settings s)) eqn:E.
  - rewrite E. split; [ | repeat split ].
    apply existsb_exists in E. destruct E as (kv & Hin & Hk).
    destruct (find (fun kv => String.eqb (fst kv) "version") (Settings s))
      as [[k v]|] eqn:F; [ reflexivity | ].
    rewrite (find_none _ _ F kv Hin) in Hk. discriminate Hk.
  - cbn [withSettings Settings world].
    assert (Hnone : forall x, In x (Settings s) ->
                      String.eqb (fst x) "version" = false)
      by (apply existsb_false_all; exact E).
    split; [ | split; [ | split; [ | reflexivity ] ] ].
    + rewrite (find_app_last _ (Settings s) ("version", NumberValue 1) Hnone eq_refl).
      destruct (find _ (Settings s)) as [[k v]|] eqn:F; [ | reflexivity ].
      apply find_some in F. destruct F as [Hin Hk].
      rewrite (Hnone _ Hin) in Hk. discriminate Hk.
    + intros other Hne. f_equal. f_equal. apply find_app_miss.
      cbn [fst]. apply String.eqb_neq. congruence.
    + rewrite existsb_app. simpl. rewrite orb_true_r. reflexivity.
Qed.

(** The run of the settings test of the repository: a key that is new,
    the version raised by one, [init] again. *)
Example settings_test_run :
  let s1 := snd (setSetting "other" (NumberValue 0) sampleStore) in
  let s2 := snd (setSetting "version" (NumberValue 2) s1) in
  let s3 := snd (init s2) in
  fst (getSetting "version" sampleStore) = Ok (Some (NumberValue 1))
  /\ fst (getSetting "version" s2) = Ok (Some (NumberValue 2))
  /\ fst (getSetting "version" s3) = Ok (Some (NumberValue 2))
  /\ fst (getSetting "other" s3) = Ok (Some (NumberValue 0))
  /\ fst (getSetting "missing" s3) = Ok None.
Proof. repeat split. Qed.

End SettingsTable.

(** ** The registry, new users, new timers, new groups and memberships *)

Section Creation.

Lemma fold_max_ge (ids : list Z) (id : Z) :
  In id ids -> id <= fold_right Z.max 0 ids.
Proof.
  induction ids as [|x ids IH]; simpl; intros Hin; [ contradiction | ].
  destruct Hin as [-> | Hin]; [ lia | ]. specialize (IH Hin). lia.
Qed.

(** A new rowid is above the counter and every rowid in use, and is at
    least 1. *)
Lemma nextRowid_fresh (seq : Z) (ids : list Z) :
  seq < nextRowid seq ids /\ 1 <= nextRowid seq ids
  /\ forall id, In id ids -> id < nextRowid seq ids.
Proof.
  unfold nextRowid. split; [ lia | ]. split.
  - assert (0 <= fold_right Z.max 0 ids)
      by (induction ids; simpl; lia).
    lia.
  - intros id Hin. apply fold_max_ge in Hin. lia.
Qed.

(** X22.  [createSlug] never throws: it returns the first candidate of
    six characters it draws, a slug the registry holds already included.
    A registry without duplicates stays without: the candidate goes last
    when it is new and the registry is left as it was when it is not; no
    other table is touched. *)
Theorem createSlug_registry (w : World) :
  NoDup (Slugs (db w)) ->
  exists slug,
    fst (createSlug w) = Ok slug
    /\ slug = drawString (random w) (drawn w) 6
    /\ NoDup (Slugs (db (snd (createSlug w))))
    /\ In slug (Slugs (db (snd (createSlug w))))
    /\ (In slug (Slugs (db w)) ->
          Slugs (db (snd (createSlug w))) = Slugs (db w))
    /\ (~ In slug (Slugs (db w)) ->
          Slugs (db (snd (createSlug w))) = (Slugs (db w) ++ [slug])%list)
    /\ Users (db (snd (createSlug w))) = Users (db w)
    /\ Timers (db (snd (createSlug w))) = Timers (db w)
    /\ Groups (db (snd (createSlug w))) = Groups (db w)
    /\ TimerGroups (db (snd (createSlug w))) = TimerGroups (db w).
Proof.
  intros Hnd.
  destruct (createSlug w) as [r w'] eqn:E.
  destruct r as [slug|msg]; [ | exfalso; exact (createSlug_never_throws w msg w' E) ].
  pose proof (createSlug_frame w) as Hf. rewrite E in Hf. cbn [snd] in Hf.
  destruct Hf as (Hu & _ & Ht & Hg & Htg & _).
  destruct (createSlug_registered w slug w' E) as (Hs & Hin & Hold & Hnew).
  exists slug. cbn [fst snd].
  split; [ reflexivity | ]. split; [ exact Hs | ]. split.
  - destruct (in_dec string_dec slug (Slugs (db w))) as [Hi | Hi].
    + rewrite (Hold Hi). exact Hnd.
    + rewrite (Hnew Hi).
      apply Permutation_NoDup with (l := slug :: Slugs (db w)).
      * apply Permutation_cons_append.
      * constructor; assumption.
  - repeat (split; [ assumption | ]). exact Htg.
Qed.

Lemma createSlug_registry_witness :
  exists slug,
    fst (createSlug collidingWorld) = Ok slug
    /\ slug = drawString (random collidingWorld) (drawn collidingWorld) 6
    /\ NoDup (Slugs (db (snd (createSlug collidingWorld))))
    /\ In slug (Slugs (db (snd (createSlug collidingWorld))))
    /\ (In slug (Slugs (db collidingWorld)) ->
          Slugs (db (snd (createSlug collidingWorld)))
          = Slugs (db collidingWorld))
    /\ (~ In slug (Slugs (db collidingWorld)) ->
          Slugs (db (snd (createSlug collidingWorld)))
          = (Slugs (db collidingWorld) ++ [slug])%list)
    /\ Users (db (snd (createSlug collidingWorld))) = Users (db collidingWorld)
    /\ Timers (db (snd (createSlug collidingWorld))) = Timers (db collidingWorld)
    /\ Groups (db (snd (createSlug collidingWorld))) = Groups (db collidingWorld)
    /\ TimerGroups (db (snd (createSlug collidingWorld)))
       = TimerGroups (db collidingWorld).
Proof.
  apply (createSlug_registry collidingWorld).
  simpl. repeat constructor; simpl; intuition discriminate.
Defined.

(** A slug in use is handed out again when it is drawn. *)
Example createSlug_collision :
  fst (createSlug collidingWorld) = Ok "Tmr222"
  /\ In "Tmr222" (Slugs (db collidingWorld))
  /\ Slugs (db (snd (createSlug collidingWorld))) = Slugs (db collidingWorld).
Proof. vm_compute. repeat split. right. right. left. reflexivity. Qed.

(** X23.  [getOrCreateUser] with an email that no row has returns, without
    an error, a new user that it appends as one row to [Users]: its id is
    the next rowid, above the counter and the id of every row there; its
    slug is the first candidate drawn, which is in the registry after the
    call whether it was before or not; the counter moves to the new id and
    the rows that were there, the timers and the groups stay. *)
Theorem getOrCreateUser_new_email (email : string) (w : World) :
  (forall x, In x (Users (db w)) -> user_email x <> email) ->
  exists u w',
    getOrCreateUser email w = (Ok u, w')
    /\ u = {| user_id := nextRowid (seqUsers (db w))
                           (map user_id (Users (db w)));
              user_email := email;
              user_slug := drawString (random w) (drawn w) 6 |}
    /\ seqUsers (db w) < user_id u
    /\ (forall x, In x (Users (db w)) -> user_id x < user_id u)
    /\ Users (db w') = (Users (db w) ++ [u])%list
    /\ seqUsers (db w') = user_id u
    /\ In (user_slug u) (Slugs (db w'))
    /\ Timers (db w') = Timers (db w) /\ Groups (db w') = Groups (db w).
Proof.
  intros Hfresh.
  assert (Hnone : existsb (hasEmail email) (Users (db w)) = false).
  { destruct (existsb _ _) eqn:E; [ | reflexivity ].
    apply existsb_exists in E. destruct E as (x & Hx & Ex).
    apply hasEmail_eq in Ex. exfalso. exact (Hfresh x Hx Ex). }
  rewrite getOrCreateUser_eq. cbv zeta. rewrite Hnone.
  rewrite (find_app_last (hasEmail email) (Users (db w))
             (mkUser (nextRowid (seqUsers (db w)) (map user_id (Users (db w))))
                email (drawString (random w) (drawn w) 6))
             (existsb_false_all _ _ Hnone) (String.eqb_refl _)).
  cbn [user_id user_slug user_email].
  eexists. eexists. split; [ reflexivity | ].
  cbn [withDB db Users seqUsers Slugs Timers Groups user_id user_slug].
  pose proof (nextRowid_fresh (seqUsers (db w)) (map user_id (Users (db w))))
    as (Hseq & _ & Hids).
  split; [ reflexivity | ]. split; [ exact Hseq | ]. split.
  { intros x Hx. apply Hids. apply in_map. exact Hx. }
  split; [ reflexivity | ]. split; [ reflexivity | ]. split.
  { destruct (createSlug w) as [r w1] eqn:E.
    destruct r as [slug|msg];
      [ | exfalso; exact (createSlug_never_throws w msg w1 E) ].
    destruct (createSlug_registered w slug w1 E) as (-> & Hin & _).
    exact Hin. }
  split; reflexivity.
Qed.

Lemma getOrCreateUser_new_email_witness :
  exists u w',
    getOrCreateUser "cat@example.org" collidingWorld = (Ok u, w')
    /\ u = {| user_id := nextRowid (seqUsers (db collidingWorld))
                           (map user_id (Users (db collidingWorld)));
              user_email := "cat@example.org";
              user_slug := drawString (random collidingWorld)
                             (drawn collidingWorld) 6 |}
    /\ seqUsers (db collidingWorld) < user_id u
    /\ (forall x, In x (Users (db collidingWorld)) -> user_id x < user_id u)
    /\ Users (db w') = (Users (db collidingWorld) ++ [u])%list
    /\ seqUsers (db w') = user_id u
    /\ In (user_slug u) (Slugs (db w'))
    /\ Timers (db w') = Timers (db collidingWorld)
    /\ Groups (db w') = Groups (db collidingWorld).
Proof.
  apply (getOrCreateUser_new_email "cat@example.org" collidingWorld).
  intros x Hx. simpl in Hx.
  destruct Hx as [<- | [<- | []]]; simpl; discriminate.
Defined.

(** The new user can get a slug that a timer has. *)
Example getOrCreateUser_collision :
  fst (getOrCreateUser "cat@example.org" collidingWorld)
  = Ok {| user_id := 3; user_email := "cat@example.org";
          user_slug := "Tmr222" |}
  /\ timer_slug sampleTimer1 = "Tmr222".
Proof. vm_compute. split; reflexivity. Qed.

(** What [createTimer] does, case by case. *)
Lemma createTimer_spec (userId : Z) (title : string) (s : Store) :
  match createTimer userId title s with
  | (Ok slug, s') =>
      slug = drawString (random (world s)) (drawn (world s)) 6
      /\ In slug (Slugs (db (world s')))
      /\ (In slug (Slugs (db (world s))) ->
            Slugs (db (world s')) = Slugs (db (world s)))
      /\ (~ In slug (Slugs (db (world s))) ->
            Slugs (db (world s')) = (Slugs (db (world s)) ++ [slug])%list)
      /\ (exists id,
            (forall t, In t (Timers (db (world s))) -> timer_id t < id)
            /\ seqTimers s < id /\ seqTimers s' = id
            /\ Timers (db (world s'))
               = (Timers (db (world s))
                  ++ [ {| timer_id := id; timer_epoch := clock (world s);
                          timer_title := title; timer_slug := slug;
                          timer_secret := uuid s (uuids s);
                          timer_userid := userId; timer_format := 2;
                          timer_createdAt := clock (world s) |} ])%list)
      /\ Users (db (world s')) = Users (db (world s))
      /\ Groups (db (world s')) = Groups (db (world s))
      /\ TimerGroups (db (world s')) = TimerGroups (db (world s))
      /\ uuids s' = S (uuids s)
      /\ (foreign_keys (db (world s)) = false
          \/ hasUser (db (world s)) userId = true)
  | (Throw msg, s') =>
      msg = foreignKeyFailed
      /\ foreign_keys (db (world s)) = true
      /\ hasUser (db (world s)) userId = false
      /\ Timers (db (world s')) = Timers (db (world s))
      /\ seqTimers s' = seqTimers s
      /\ In (drawString (random (world s)) (drawn (world s)) 6)
            (Slugs (db (world s')))
  end.
Proof.
  unfold createTimer. rewrite createSlug_eq. cbv zeta.
  set (cand := drawString (random (world s)) (drawn (world s)) 6) in *.
  assert (Hreg : In cand (Slugs (db (world s)))
                 \/ ~ In cand (Slugs (db (world s))))
    by (destruct (in_dec string_dec cand (Slugs (db (world s)))); tauto).
  destruct (existsb (String.eqb cand) (Slugs (db (world s)))) eqn:Ex.
  - apply existsb_eqb_In in Ex.
    cbn [advance db foreign_keys]. fold (hasUser (db (world s)) userId).
    change (hasUser (db (advance (world s) 6)) userId)
      with (hasUser (db (world s)) userId).
    destruct (foreign_keys (db (world s)) && negb (hasUser (db (world s)) userId))
      eqn:F.
    + apply andb_prop in F. destruct F as [Ffk Fu].
      apply negb_true_iff in Fu. cbn [world advance db seqTimers].
      repeat (split; [ assumption || reflexivity | ]). exact Ex.
    + cbn [world withDB advance db Slugs Users Timers Groups TimerGroups
           seqTimers uuids clock].
      split; [ reflexivity | ]. split; [ exact Ex | ].
      split; [ reflexivity | ]. split; [ intros Hn; contradiction | ].
      split.
      { eexists. split; [ | split; [ | split; reflexivity ] ].
        - intros t Ht.
          apply (proj2 (proj2 (nextRowid_fresh _ _))). apply in_map. exact Ht.
        - exact (proj1 (nextRowid_fresh _ _)). }
      repeat (split; [ reflexivity | ]).
      apply andb_false_iff in F. destruct F as [F | F]; [ left; exact F | ].
      right. apply negb_false_iff in F. exact F.
  - assert (Hnew : ~ In cand (Slugs (db (world s)))).
    { intros Hin. apply existsb_eqb_In in Hin. congruence. }
    change (foreign_keys (db (registered (world s) cand (drawn (world s) + 6))))
      with (foreign_keys (db (world s))).
    change (hasUser (db (registered (world s) cand (drawn (world s) + 6))) userId)
      with (hasUser (db (world s)) userId).
    destruct (foreign_keys (db (world s)) && negb (hasUser (db (world s)) userId))
      eqn:F.
    + apply andb_prop in F. destruct F as [Ffk Fu].
      apply negb_true_iff in Fu.
      cbn [world registered db withSlugs Slugs Timers seqTimers].
      repeat (split; [ assumption || reflexivity | ]).
      apply in_or_app. right. left. reflexivity.
    + cbn [world withDB registered db withSlugs Slugs Users Timers Groups
           TimerGroups seqTimers uuids clock].
      split; [ reflexivity | ]. split.
      { apply in_or_app. right. left. reflexivity. }
      split; [ intros Hin; contradiction | ]. split; [ reflexivity | ].
      split.
      { eexists. split; [ | split; [ | split; reflexivity ] ].
        - intros t Ht.
          apply (proj2 (proj2 (nextRowid_fresh _ _))). apply in_map. exact Ht.
        - exact (proj1 (nextRowid_fresh _ _)). }
      repeat (split; [ reflexivity | ]).
      apply andb_false_iff in F. destruct F as [F | F]; [ left; exact F | ].
      right. apply negb_false_iff in F. exact F.
Qed.

(** X24.  [createTimer] returns the first candidate slug drawn, new to the
    registry or not, and has then appended one timer: of that slug, owner
    and title, with format 2, epoch and creation time at the clock
    reading, the next secret of the source, and an id above the counter
    and every id in use; the slug is in the registry afterwards, which
    grew by it only if it was new.  It throws only the foreign key error,
    only with foreign keys on and an owner that is no user, and then adds
    no timer and leaves the counter, the candidate slug staying in the
    registry.  It never throws for want of a slug. *)
Theorem createTimer_outcome (userId : Z) (title : string) (s : Store) :
  match createTimer userId title s with
  | (Ok slug, s') =>
      slug = drawString (random (world s)) (drawn (world s)) 6
      /\ In slug (Slugs (db (world s')))
      /\ (In slug (Slugs (db (world s))) ->
            Slugs (db (world s')) = Slugs (db (world s)))
      /\ (~ In slug (Slugs (db (world s))) ->
            Slugs (db (world s')) = (Slugs (db (world s)) ++ [slug])%list)
      /\ (exists id,
            (forall t, In t (Timers (db (world s))) -> timer_id t < id)
            /\ seqTimers s < id /\ seqTimers s' = id
            /\ Timers (db (world s'))
               = (Timers (db (world s))
                  ++ [ {| timer_id := id; timer_epoch := clock (world s);
                          timer_title := title; timer_slug := slug;
                          timer_secret := uuid s (uuids s);
                          timer_userid := userId; timer_format := 2;
                          timer_createdAt := clock (world s) |} ])%list)
      /\ Users (db (world s')) = Users (db (world s))
      /\ Groups (db (world s')) = Groups (db (world s))
      /\ TimerGroups (db (world s')) = TimerGroups (db (world s))
      /\ uuids s' = S (uuids s)
      /\ (foreign_keys (db (world s)) = false
          \/ hasUser (db (world s)) userId = true)
  | (Throw msg, s') =>
      msg = foreignKeyFailed
      /\ foreign_keys (db (world s)) = true
      /\ hasUser (db (world s)) userId = false
      /\ Timers (db (world s')) = Timers (db (world s))
      /\ seqTimers s' = seqTimers s
      /\ In (drawString (random (world s)) (drawn (world s)) 6)
            (Slugs (db (world s')))
  end.
Proof. exact (createTimer_spec userId title s). Qed.

Example createTimer_sample :
  fst (createTimer 2 "Tea" sampleStore) = Ok "ABCDEF"
  /\ Timers (db (world (snd (createTimer 2 "Tea" sampleStore))))
     = [sampleTimer1; sampleTimer2;
        {| timer_id := 3; timer_epoch := 1700003661; timer_title := "Tea";
           timer_slug := "ABCDEF"; timer_secret := "uuid-0";
           timer_userid := 2; timer_format := 2;
           timer_createdAt := 1700003661 |}].
Proof. vm_compute. split; reflexivity. Qed.


Lemma filter_app_last {A : Type} (f : A -> bool) (l : list A) (y : A) :
  filter f (l ++ [y]) = (filter f l ++ (if f y then [y] else []))%list.
Proof. rewrite filter_app. reflexivity. Qed.

(** X25.  After [createTimer userId title] returned a slug, [getTimers
    userId] lists the timers it listed before followed by one new timer
    of that slug, and lists for every other user what it listed before. *)
Theorem createTimer_getTimers (userId : Z) (title : string) (s : Store)
    (slug : string) (s' : Store) :
  createTimer userId title s = (Ok slug, s') ->
  (exists row,
     fst (getTimers userId (world s'))
     = Ok (timersOfUser userId (db (world s)) ++ [row])%list
     /\ timer_slug row = slug /\ timer_userid row = userId
     /\ timer_title row = title)
  /\ (forall other, other <> userId ->
        fst (getTimers other (world s')) = fst (getTimers other (world s))).
Proof.
  intros E. pose proof (createTimer_spec userId title s) as H.
  rewrite E in H. destruct H as (_ & _ & _ & _ & (id & _ & _ & _ & Ht) & _).
  unfold getTimers, dbAll, timersOfUser. cbn [fst]. rewrite Ht.
  rewrite filter_app_last. cbn [timer_userid]. split.
  - rewrite Z.eqb_refl. eexists. split; [ reflexivity | ]. repeat split.
  - intros other Hne. rewrite filter_app_last. cbn [timer_userid].
    destruct (Z.eqb_spec userId other); [ congruence | ].
    now rewrite app_nil_r.
Qed.

Lemma createTimer_getTimers_witness :
  exists row,
    fst (getTimers 2 (world (snd (createTimer 2 "Tea" sampleStore))))
    = Ok (timersOfUser 2 (db (world sampleStore)) ++ [row])%list
    /\ timer_slug row = "ABCDEF" /\ timer_userid row = 2
    /\ timer_title row = "Tea".
Proof.
  apply (createTimer_getTimers 2 "Tea" sampleStore "ABCDEF"
           (snd (createTimer 2 "Tea" sampleStore))).
  vm_compute. reflexivity.
Defined.

(** [deleteTimer] for an owner and a slug that no timer has together. *)
Lemma deleteTimer_no_hit (userId : Z) (slug : string) (w : World) :
  (forall t, In t (Timers (db w)) ->
     (timer_userid t =? userId) && String.eqb (timer_slug t) slug = false) ->
  deleteTimer userId slug w = (Ok tt, w).
Proof.
  intros Hmiss. rewrite deleteTimer_eq.
  rewrite (filter_keeps_none _ _ Hmiss), cascadeTimers_nil.
  rewrite filter_keeps_all.
  - rewrite db_eta. now rewrite withDB_same.
  - intros t Ht. rewrite (Hmiss t Ht). reflexivity.
Qed.

(** X26.  Where no earlier timer has the slug that [createTimer] returned,
    [deleteTimer] by the owner with that slug takes the new timer away and
    leaves the timers that were there before the creation; the same call
    by any other user changes nothing. *)
Theorem createTimer_deleteTimer (userId : Z) (title : string) (s : Store)
    (slug : string) (s' : Store) :
  (forall t, In t (Timers (db (world s))) -> timer_slug t <> slug) ->
  createTimer userId title s = (Ok slug, s') ->
  Timers (db (snd (deleteTimer userId slug (world s'))))
  = Timers (db (world s))
  /\ (forall other, other <> userId ->
        deleteTimer other slug (world s') = (Ok tt, world s')).
Proof.
  intros Hnew E. pose proof (createTimer_spec userId title s) as H.
  rewrite E in H. destruct H as (_ & _ & _ & _ & (id & _ & _ & _ & Ht) & _).
  assert (Hold : forall t, In t (Timers (db (world s))) ->
                   String.eqb (timer_slug t) slug = false).
  { intros t Hin. apply String.eqb_neq. exact (Hnew t Hin). }
  split.
  - rewrite deleteTimer_eq. cbn [snd withDB db Timers]. rewrite Ht.
    rewrite filter_app_last. cbn [timer_userid timer_slug].
    rewrite Z.eqb_refl, String.eqb_refl. simpl. rewrite app_nil_r.
    apply filter_keeps_all. intros t Hin.
    rewrite (Hold t Hin), andb_false_r. reflexivity.
  - intros other Hne. apply deleteTimer_no_hit. rewrite Ht.
    intros t Hin. apply in_app_or in Hin.
    destruct Hin as [Hin | [<- | []]].
    + rewrite (Hold t Hin). apply andb_false_r.
    + cbn [timer_userid]. destruct (Z.eqb_spec userId other);
        [ congruence | reflexivity ].
Qed.

Lemma createTimer_deleteTimer_witness :
  Timers (db (snd (deleteTimer 2 "ABCDEF"
                     (world (snd (createTimer 2 "Tea" sampleStore))))))
  = Timers (db (world sampleStore)).
Proof.
  apply (createTimer_deleteTimer 2 "Tea" sampleStore "ABCDEF"
           (snd (createTimer 2 "Tea" sampleStore))).
  - intros t Ht. simpl in Ht.
    destruct Ht as [<- | [<- | []]]; simpl; discriminate.
  - vm_compute. reflexivity.
Defined.

(** Where an earlier timer of the owner has the slug, it goes too: the
    new timer gets the slug of the first sample timer, and deleting by
    that slug leaves the second sample timer only. *)
Example createTimer_collision :
  fst (createTimer 2 "Tea" collidingStore) = Ok "Tmr222"
  /\ map timer_slug
       (Timers (db (world (snd (createTimer 2 "Tea" collidingStore)))))
     = ["Tmr222"; "Tmr333"; "Tmr222"]
  /\ Timers (db (snd (deleteTimer 2 "Tmr222"
                        (world (snd (createTimer 2 "Tea" collidingStore))))))
     = [sampleTimer2].
Proof. vm_compute. repeat split. Qed.

Lemma flat_map_nil_in {A B : Type} (f : A -> list B) (l : list A) :
  (forall x, In x l -> f x = []) -> flat_map f l = [].
Proof.
  induction l as [|x l IH]; simpl; intros H; [ reflexivity | ].
  rewrite (H x (or_introl eq_refl)), IH; [ reflexivity | ].
  intros y Hy. apply H. right. exact Hy.
Qed.

(** What [createGroup] does, case by case. *)
Lemma createGroup_spec (userId : Z) (title : string) (s : Store) :
  match createGroup userId title s with
  | (Ok slug, s') =>
      slug = drawString (random (world s)) (drawn (world s)) 6
      /\ In slug (Slugs (db (world s')))
      /\ (In slug (Slugs (db (world s))) ->
            Slugs (db (world s')) = Slugs (db (world s)))
      /\ (~ In slug (Slugs (db (world s))) ->
            Slugs (db (world s')) = (Slugs (db (world s)) ++ [slug])%list)
      /\ (exists id,
            (forall g, In g (Groups (db (world s))) -> g_id g < id)
            /\ seqGroups s < id /\ seqGroups s' = id
            /\ Groups (db (world s'))
               = (Groups (db (world s))
                  ++ [ {| g_id := id; g_title := title; g_slug := slug;
                          g_userid := userId;
                          g_createdAt := clock (world s) |} ])%list)
      /\ Users (db (world s')) = Users (db (world s))
      /\ Timers (db (world s')) = Timers (db (world s))
      /\ TimerGroups (db (world s')) = TimerGroups (db (world s))
      /\ (foreign_keys (db (world s)) = false
          \/ hasUser (db (world s)) userId = true)
  | (Throw msg, s') =>
      msg = foreignKeyFailed
      /\ foreign_keys (db (world s)) = true
      /\ hasUser (db (world s)) userId = false
      /\ Groups (db (world s')) = Groups (db (world s))
      /\ seqGroups s' = seqGroups s
      /\ In (drawString (random (world s)) (drawn (world s)) 6)
            (Slugs (db (world s')))
  end.
Proof.
  unfold createGroup. rewrite createSlug_eq. cbv zeta.
  set (cand := drawString (random (world s)) (drawn (world s)) 6) in *.
  assert (Hreg : In cand (Slugs (db (world s)))
                 \/ ~ In cand (Slugs (db (world s))))
    by (destruct (in_dec string_dec cand (Slugs (db (world s)))); tauto).
  destruct (existsb (String.eqb cand) (Slugs (db (world s)))) eqn:Ex.
  - apply existsb_eqb_In in Ex.
    change (foreign_keys (db (advance (world s) 6)))
      with (foreign_keys (db (world s))).
    change (hasUser (db (advance (world s) 6)) userId)
      with (hasUser (db (world s)) userId).
    destruct (foreign_keys (db (world s)) && negb (hasUser (db (world s)) userId))
      eqn:F.
    + apply andb_prop in F. destruct F as [Ffk Fu].
      apply negb_true_iff in Fu. cbn [withWorld world advance db seqGroups].
      repeat (split; [ assumption || reflexivity | ]). exact Ex.
    + pose proof (nextRowid_fresh (seqGroups s)
                    (map g_id (Groups (db (advance (world s) 6)))))
        as (Hseq & Hpos & Hfresh).
      destruct (Z.eqb_spec
                  (nextRowid (seqGroups s)
                     (map g_id (Groups (db (advance (world s) 6))))) 0)
        as [H0 | _]; [ lia | ].
      cbn [world withDB advance db Slugs Users Timers Groups TimerGroups
           seqGroups clock].
      split; [ reflexivity | ]. split; [ exact Ex | ].
      split; [ reflexivity | ]. split; [ intros Hn; contradiction | ].
      split.
      { eexists. split; [ | split; [ | split; reflexivity ] ].
        - intros g Hg. apply Hfresh. apply in_map. exact Hg.
        - exact Hseq. }
      repeat (split; [ reflexivity | ]).
      apply andb_false_iff in F. destruct F as [F | F]; [ left; exact F | ].
      right. apply negb_false_iff in F. exact F.
  - assert (Hnew : ~ In cand (Slugs (db (world s)))).
    { intros Hin. apply existsb_eqb_In in Hin. congruence. }
    change (foreign_keys (db (registered (world s) cand (drawn (world s) + 6))))
      with (foreign_keys (db (world s))).
    change (hasUser (db (registered (world s) cand (drawn (world s) + 6))) userId)
      with (hasUser (db (world s)) userId).
    destruct (foreign_keys (db (world s)) && negb (hasUser (db (world s)) userId))
      eqn:F.
    + apply andb_prop in F. destruct F as [Ffk Fu].
      apply negb_true_iff in Fu.
      cbn [withWorld world registered db withSlugs Slugs Groups seqGroups].
      repeat (split; [ assumption || reflexivity | ]).
      apply in_or_app. right. left. reflexivity.
    + pose proof (nextRowid_fresh (seqGroups s)
                    (map g_id (Groups (db (registered (world s) cand
                                             (drawn (world s) + 6))))))
        as (Hseq & Hpos & Hfresh).
      destruct (Z.eqb_spec
                  (nextRowid (seqGroups s)
                     (map g_id (Groups (db (registered (world s) cand
                                              (drawn (world s) + 6)))))) 0)
        as [H0 | _]; [ lia | ].
      cbn [world withDB registered db withSlugs Slugs Users Timers Groups
           TimerGroups seqGroups clock].
      split; [ reflexivity | ]. split.
      { apply in_or_app. right. left. reflexivity. }
      split; [ intros Hin; contradiction | ]. split; [ reflexivity | ].
      split.
      { eexists. split; [ | split; [ | split; reflexivity ] ].
        - intros g Hg. apply Hfresh. apply in_map. exact Hg.
        - exact Hseq. }
      repeat (split; [ reflexivity | ]).
      apply andb_false_iff in F. destruct F as [F | F]; [ left; exact F | ].
      right. apply negb_false_iff in F. exact F.
Qed.

(** X27.  [createGroup] returns the first candidate slug drawn, new to the
    registry or not, and has then appended one group: of that slug, owner
    and title, created at the clock reading, with an id above the counter
    and every id in use; the slug is in the registry afterwards, which
    grew by it only if it was new.  It throws only the foreign key error,
    only with foreign keys on and an owner that is no user, and then adds
    no group and leaves the counter.  It never throws for want of a slug
    or of a group id. *)
Theorem createGroup_outcome (userId : Z) (title : string) (s : Store) :
  match createGroup userId title s with
  | (Ok slug, s') =>
      slug = drawString (random (world s)) (drawn (world s)) 6
      /\ In slug (Slugs (db (world s')))
      /\ (In slug (Slugs (db (world s))) ->
            Slugs (db (world s')) = Slugs (db (world s)))
      /\ (~ In slug (Slugs (db (world s))) ->
            Slugs (db (world s')) = (Slugs (db (world s)) ++ [slug])%list)
      /\ (exists id,
            (forall g, In g (Groups (db (world s))) -> g_id g < id)
            /\ seqGroups s < id /\ seqGroups s' = id
            /\ Groups (db (world s'))
               = (Groups (db (world s))
                  ++ [ {| g_id := id; g_title := title; g_slug := slug;
                          g_userid := userId;
                          g_createdAt := clock (world s) |} ])%list)
      /\ Users (db (world s')) = Users (db (world s))
      /\ Timers (db (world s')) = Timers (db (world s))
      /\ TimerGroups (db (world s')) = TimerGroups (db (world s))
      /\ (foreign_keys (db (world s)) = false
          \/ hasUser (db (world s)) userId = true)
  | (Throw msg, s') =>
      msg = foreignKeyFailed
      /\ foreign_keys (db (world s)) = true
      /\ hasUser (db (world s)) userId = false
      /\ Groups (db (world s')) = Groups (db (world s))
      /\ seqGroups s' = seqGroups s
      /\ In (drawString (random (world s)) (drawn (world s)) 6)
            (Slugs (db (world s')))
  end.
Proof. exact (createGroup_spec userId title s). Qed.

(** X28.  Where every membership row points at a group of the table, a
    group that [createGroup] has just made shows up for no user:
    [getGroups] returns to each what it returned before. *)
Theorem createGroup_getGroups (userId : Z) (title : string) (s : Store)
    (slug : string) (s' : Store) (viewer : Z) :
  (forall tg, In tg (TimerGroups (db (world s))) ->
     exists g, In g (Groups (db (world s))) /\ g_id g = tg_groupid tg) ->
  createGroup userId title s = (Ok slug, s') ->
  fst (getGroups viewer (world s')) = fst (getGroups viewer (world s)).
Proof.
  intros Href E. pose proof (createGroup_spec userId title s) as H.
  rewrite E in H.
  destruct H as (_ & _ & _ & _ & (id & Hfresh & _ & _ & Hg) & _ & Ht & Htg & _).
  rewrite !getGroups_eq. cbn [fst]. f_equal. unfold groupsOf. f_equal. f_equal.
  f_equal. unfold getGroupsRows. rewrite Hg, Ht, Htg.
  rewrite flat_map_app. cbn [flat_map]. rewrite app_nil_r.
  rewrite <- (app_nil_r (flat_map _ (Groups (db (world s))))) at 2.
  f_equal. apply flat_map_nil_in. intros tg Hin.
  apply flat_map_nil_in. intros t _. cbn [g_id].
  destruct (Href tg Hin) as (g & Hgin & Hid).
  specialize (Hfresh g Hgin).
  destruct (Z.eqb_spec (tg_groupid tg) id); [ lia | reflexivity ].
Qed.

Lemma createGroup_getGroups_witness :
  fst (getGroups 2 (world (snd (createGroup 2 "Garden" sampleStore))))
  = fst (getGroups 2 (world sampleStore)).
Proof.
  apply (createGroup_getGroups 2 "Garden" sampleStore "ABCDEF"
           (snd (createGroup 2 "Garden" sampleStore)) 2).
  - intros tg Htg. exists sampleGroup1. simpl in Htg.
    destruct Htg as [<- | [<- | []]]; simpl; tauto.
  - vm_compute. reflexivity.
Defined.

(** X29.  [addTimer] of a timer of the table to a group of the table
    returns without an error, whoever the user named is, and [getGroups]
    then lists that timer on that group for the owner of the group. *)
Theorem addTimer_getGroups (userId : Z) (grow : GroupRow) (t : Timer)
    (s : Store) :
  In grow (Groups (db (world s))) -> In t (Timers (db (world s))) ->
  exists s' groups g,
    addTimer userId (g_id grow) (timer_id t) s = (Ok tt, s')
    /\ getGroups (g_userid grow) (world s') = (Ok groups, world s')
    /\ In g groups /\ group_id g = g_id grow /\ In t (group_timers g).
Proof.
  intros Hg Ht. unfold addTimer.
  assert (Hhg : hasGroup (db (world s)) (g_id grow) = true).
  { apply existsb_exists. exists grow. split; [ exact Hg | apply Z.eqb_refl ]. }
  assert (Hht : hasTimer (db (world s)) (timer_id t) = true).
  { apply existsb_exists. exists t. split; [ exact Ht | apply Z.eqb_refl ]. }
  rewrite Hhg, Hht. cbn [andb negb]. rewrite andb_false_r.
  eexists. eexists.
  set (row := {| tg_id := nextRowid (seqTimerGroups s)
                            (map tg_id (TimerGroups (db (world s))));
                 tg_groupid := g_id grow; tg_timerid := timer_id t;
                 tg_userid := userId; tg_createdAt := clock (world s) |}).
  set (d' := {| foreign_keys := foreign_keys (db (world s));
                Slugs := Slugs (db (world s)); Users := Users (db (world s));
                seqUsers := seqUsers (db (world s));
                Timers := Timers (db (world s));
                Groups := Groups (db (world s));
                TimerGroups := (TimerGroups (db (world s)) ++ [row])%list |}).
  destruct (groupsOf_complete (g_userid grow) d' grow t) as (g & Hin & Hid & Hmem).
  { apply (getGroupsRows_complete (g_userid grow) d' grow row t);
      try reflexivity; try assumption.
    cbn [d' TimerGroups]. apply in_or_app. right. left. reflexivity. }
  exists g. split; [ reflexivity | ].
  split; [ apply getGroups_eq | ]. tauto.
Qed.

Lemma addTimer_getGroups_witness :
  exists s' groups g,
    addTimer 1 (g_id sampleGroup2) (timer_id sampleTimer1) sampleStore
    = (Ok tt, s')
    /\ getGroups (g_userid sampleGroup2) (world s') = (Ok groups, world s')
    /\ In g groups /\ group_id g = g_id sampleGroup2
    /\ In sampleTimer1 (group_timers g).
Proof.
  apply (addTimer_getGroups 1 sampleGroup2 sampleTimer1 sampleStore);
    simpl; tauto.
Defined.

(** X30.  Where no membership row has the three ids, [removeTimer] after
    an [addTimer] of them that returned puts the membership table back as
    it was before, and neither touches the timers or the groups. *)
Theorem addTimer_removeTimer (userId groupId timerId : Z) (s s' : Store) :
  (forall tg, In tg (TimerGroups (db (world s))) ->
     ~ (tg_userid tg = userId /\ tg_groupid tg = groupId
        /\ tg_timerid tg = timerId)) ->
  addTimer userId groupId timerId s = (Ok tt, s') ->
  TimerGroups (db (snd (removeTimer userId groupId timerId (world s'))))
  = TimerGroups (db (world s))
  /\ Timers (db (snd (removeTimer userId groupId timerId (world s'))))
     = Timers (db (world s))
  /\ Groups (db (snd (removeTimer userId groupId timerId (world s'))))
     = Groups (db (world s)).
Proof.
  intros Hnone E. unfold addTimer in E.
  destruct (foreign_keys (db (world s))
            && negb (hasGroup (db (world s)) groupId
                     && hasTimer (db (world s)) timerId));
    [ discriminate E | ].
  injection E as <-. rewrite removeTimer_eq.
  cbn [snd withDB world db TimerGroups Timers Groups].
  split; [ | split; reflexivity ].
  rewrite filter_app_last. cbn [tg_userid tg_groupid tg_timerid].
  rewrite !Z.eqb_refl. simpl. rewrite app_nil_r.
  apply filter_keeps_all. intros tg Hin. apply negb_true_iff.
  destruct (Z.eqb_spec (tg_userid tg) userId);
    destruct (Z.eqb_spec (tg_groupid tg) groupId);
    destruct (Z.eqb_spec (tg_timerid tg) timerId);
    try reflexivity.
  exfalso. apply (Hnone tg Hin). tauto.
Qed.

Lemma addTimer_removeTimer_witness :
  TimerGroups (db (snd (removeTimer 2 2 1
                          (world (snd (addTimer 2 2 1 sampleStore))))))
  = TimerGroups (db (world sampleStore)).
Proof.
  apply (addTimer_removeTimer 2 2 1 sampleStore (snd (addTimer 2 2 1 sampleStore))).
  - intros tg Htg. simpl in Htg.
    destruct Htg as [<- | [<- | []]]; simpl; intros (_ & H & _); discriminate H.
  - vm_compute. reflexivity.
Defined.

End Creation.
